(** * Life Morale Index scoring: a model of [lib/scoring.ts]

    The scoring pipeline of the repository is embedded as Rocq functions
    and the properties its specification states are proved about them.

    Numbers.  A JavaScript [number] is modelled by a real number: IEEE-754
    rounding, overflow and the infinities are idealised away, so an
    equality proved here holds "within floating tolerance" in the running
    program.  [NaN] is tracked where the code makes one out of ordinary
    inputs: the marker [a.score ?? NaN] of an unanswered item, and the
    quotient [0/0] that [calibrate] forms when [k = 0].  Numbers read
    from the input are taken to be ordinary (finite, not [NaN]).
    The idealisation is faithful where the doubles follow the reals up to
    rounding, as at the default configuration; where they part company
    for good, at a steepness so small that [k / 10] underflows, the
    double arithmetic itself is modelled ([calibrate_double]).

    Absence.  [undefined] and [null] are [None]; an optional field is an
    [option]. *)

From Stdlib Require Import Reals Lra Lia List String Bool Arith.
From Stdlib Require Import Sorting.Sorted Sorting.Permutation.
From Stdlib Require Import Floats.
Import ListNotations.
Open Scope R_scope.

Set Implicit Arguments.

(** ** JavaScript values and operators *)

(** A number that may be [NaN]. *)
Inductive num : Type :=
| Fin (r : R)
| NaN.

(** [a / b] where [b] may be zero.  The only quotient of the program whose
    divisor is not a guarded or literal non-zero value is [num / den] in
    [calibrate]; there [den = 0] forces [num = 0] (lemma
    [calibrate_zero_den]), so the quotient by zero is [0/0 = NaN]. *)
Definition jsdiv (a b : R) : num :=
  if Req_dec_T b 0 then NaN else Fin (a / b).

(** [a * b] with [a] ordinary: [NaN] propagates. *)
Definition jsmul (a : R) (b : num) : num :=
  match b with
  | Fin r => Fin (a * r)
  | NaN => NaN
  end.

(** Truthiness of a number: [0] is falsy. *)
Definition truthy (x : R) : bool :=
  if Req_dec_T x 0 then false else true.

(** [x || d] on numbers. *)
Definition or_else (x d : R) : R :=
  if truthy x then x else d.

(** [a ?? b] with [b] possibly absent too, and [a ?? d] with [d] present. *)
Definition coalesce {A} (a b : option A) : option A :=
  match a with
  | Some _ => a
  | None => b
  end.

Definition nullish {A} (a : option A) (d : A) : A :=
  match a with
  | Some v => v
  | None => d
  end.

Infix "??" := nullish (at level 45, left associativity).

(** What a call can do besides returning. *)
Inductive Error : Type :=
| TypeError (what : string)
| ReferenceError (name : string).

Inductive result (A : Type) : Type :=
| Ok (a : A)
| Throw (e : Error).

Arguments Ok {A} a.
Arguments Throw {A} e.

Definition bind {A B} (m : result A) (f : A -> result B) : result B :=
  match m with
  | Ok a => f a
  | Throw e => Throw e
  end.

Notation "x <- m ;; f" := (bind m (fun x => f))
  (at level 61, m at next level, right associativity).

Fixpoint mapM {A B} (f : A -> result B) (l : list A) : result (list B) :=
  match l with
  | [] => Ok []
  | x :: l' => y <- f x ;; ys <- mapM f l' ;; Ok (y :: ys)
  end.

(** [l[i]]: [undefined] past the end. *)
Definition at_index {A} (l : list (option A)) (i : nat) : option A :=
  nth i l None.

(** [l.map((x, i) => ...)] needs the positions. *)
Fixpoint indexed {A} (from : nat) (l : list A) : list (nat * A) :=
  match l with
  | [] => []
  | x :: l' => (from, x) :: indexed (S from) l'
  end.

(** [Array.prototype.sort] with a comparator [cmp] is stable; on a
    consistent comparator every stable sort gives the same array.  An
    element stays in front of a later one unless the comparator says
    it is strictly greater. *)
Section Sort.
Context {A : Type} (cmp : A -> A -> R).

Fixpoint insert (x : A) (l : list A) : list A :=
  match l with
  | [] => [x]
  | y :: l' => if Rle_dec (cmp x y) 0 then x :: l else y :: insert x l'
  end.

Definition sort (l : list A) : list A := fold_right insert [] l.
End Sort.

(** ** Data model *)

(** [Answer = { score?, scenarioScore?, note? }] *)
Record Answer : Type := {
  score : option R;
  scenarioScore : option R;
  note : option string
}.

Inductive TimeCategory : Type :=
| Sleep | Work | Commute | Relationships | Leisure
| Gym | Chores | Growth | Other.

(** [r.category === c] *)
Definition TimeCategory_eqb (a b : TimeCategory) : bool :=
  match a, b with
  | Sleep, Sleep | Work, Work | Commute, Commute
  | Relationships, Relationships | Leisure, Leisure
  | Gym, Gym | Chores, Chores | Growth, Growth | Other, Other => true
  | _, _ => false
  end.

(** [TimeRow = { category, hours, ri }] *)
Record TimeRow : Type := {
  category : TimeCategory;
  hours : R;
  ri : R
}.

(** [Record<DimensionKey, A>] *)
Record ByDimension (A : Type) : Type := {
  Fulfillment : A;
  Connection : A;
  Autonomy : A;
  Vitality : A;
  Peace : A
}.

(** The three groups of [Config]. *)
Record Calibration : Type := { k : R; max : R }.
Record RiConfig : Type := { globalMultiplier : R }.
Record CrossLift : Type := { enabled : bool; alpha : R }.

Record Config : Type := {
  calibration : Calibration;
  ri_group : RiConfig;          (* [Config.ri] *)
  crossLift : CrossLift
}.

(** [Partial<Config>]: each group may be missing. *)
Record PartialConfig : Type := {
  calibration_opt : option Calibration;
  ri_opt : option RiConfig;
  crossLift_opt : option CrossLift
}.

(** [Input].  [ELI] is declared a number, but the code reads it through
    [?? 1], so an absent value is part of the model. *)
Record Input : Type := {
  answers : list Answer;
  timeMap : list TimeRow;
  ELI : option R;
  config : option PartialConfig
}.

(** An entry of [topDrainers] / [topUplifters]. *)
Module Top.
Record t : Type := { index : nat; score : R; note : option string }.
End Top.

Record Calibrated : Type := {
  cal_current : list (option num);
  cal_scenario : list (option num)
}.

Record SectionAverages : Type := {
  sec_current : ByDimension (option R);
  sec_scenario : ByDimension (option R)
}.

Record Output : Type := {
  calibrated : Calibrated;
  sectionAverages : SectionAverages;
  out_rawLMS : R;
  out_riAdjusted : R;
  out_finalLMI : R;
  rawLMS_scn : R;
  riAdjusted_scn : R;
  finalLMI_scn : R;
  topDrainers : list Top.t;
  topUplifters : list Top.t
}.

(** ** Constants and helper functions *)

Definition DEFAULT_CONFIG : Config := {|
  calibration := {| k := 1.936428228; max := 8.75 |};
  ri_group := {| globalMultiplier := 1 |};
  crossLift := {| enabled := false; alpha := 20 |}
|}.

Definition DIM_MAP : ByDimension (list nat) := {|
  Fulfillment := [0; 1; 2; 3; 4];
  Connection := [5; 6; 7; 8; 9];
  Autonomy := [10; 11; 12; 13; 14];
  Vitality := [15; 16; 17; 18; 19];
  Peace := [20; 21; 22; 23]
|}%nat.

Definition riToInternal (ri : option R) : R :=
  match ri with
  | None => 0
  | Some ri =>
      if Rlt_dec ri 5 then (ri - 5) * 0.075
      else if Req_dec_T ri 5 then 0
      else (ri - 5) * 0.06
  end.

(** [calibrate(s, k, max)]; the defaults of [k] and [max] are those of
    [DEFAULT_CONFIG], and [scoreLMI] always passes both. *)
Definition calibrate (s : option R) (k max : R) : option num :=
  match s with
  | None => None
  | Some s =>
      let x := Rmax 1 (Rmin 10 s) in
      let num := 1 - exp (- k * (x / 10)) in
      let den := 1 - exp (- k) in
      Some (jsmul max (jsdiv num den))
  end.

(** The filter of [avg]: a number that is not [NaN]. *)
Definition is_number (n : option num) : option R :=
  match n with
  | Some (Fin r) => Some r
  | _ => None
  end.

Fixpoint numbers (nums : list (option num)) : list R :=
  match nums with
  | [] => []
  | n :: rest =>
      match is_number n with
      | Some r => r :: numbers rest
      | None => numbers rest
      end
  end.

Definition avg (nums : list (option num)) : option R :=
  let v := numbers nums in
  match v with
  | [] => None
  | _ => Some (fold_left Rplus v 0 / INR (List.length v))
  end.

(** The six awake-time qualities. *)
Module Q.
Record t : Type := {
  Work : R; Commute : R; Gym : R;
  Relationships : R; Leisure : R; Other : R
}.
End Q.

Definition qualityFromSections (d : ByDimension (option R)) (base : option R)
  : Q.t := {|
  Q.Work := coalesce (Autonomy d) base ?? 0;
  Q.Commute := coalesce (Peace d) base ?? 0;
  Q.Gym := coalesce (Vitality d) base ?? 0;
  Q.Relationships := coalesce (Connection d) base ?? 0;
  Q.Leisure := coalesce (Fulfillment d) base ?? 0;
  Q.Other := base ?? 0
|}.

(** The object [by] of resolved rows. *)
Module By.
Record t : Type := {
  Sleep : TimeRow; Work : TimeRow; Commute : TimeRow;
  Relationships : TimeRow; Leisure : TimeRow; Gym : TimeRow;
  Chores : TimeRow; Growth : TimeRow; Other : TimeRow
}.
End By.

(** An item of [idxs]: position and raw score. *)
Module Idx.
Record t : Type := { i : nat; s : R }.
End Idx.

(** ** [scoreLMI]

    Every [const] and [let] of the function body is a definition of the
    same name; [input] is the function's argument. *)

Section ScoreLMI.
Variable input : Input.

Definition cfg : Config := {|
  calibration :=
    match config input with
    | Some c => calibration_opt c
    | None => None
    end ?? calibration DEFAULT_CONFIG;
  ri_group :=
    match config input with
    | Some c => ri_opt c
    | None => None
    end ?? ri_group DEFAULT_CONFIG;
  crossLift :=
    match config input with
    | Some c => crossLift_opt c
    | None => None
    end ?? crossLift DEFAULT_CONFIG
|}.

(** 1) Calibrate answers *)
Definition current : list (option num) :=
  map (fun a => calibrate (score a) (k (calibration cfg)) (max (calibration cfg)))
      (answers input).
Definition scenario : list (option num) :=
  map (fun a => calibrate (scenarioScore a) (k (calibration cfg)) (max (calibration cfg)))
      (answers input).

(** 2) Section averages *)
Definition sectionCurrent : ByDimension (option R) := {|
  Fulfillment := avg (map (fun i => at_index current i) (Fulfillment DIM_MAP));
  Connection := avg (map (fun i => at_index current i) (Connection DIM_MAP));
  Autonomy := avg (map (fun i => at_index current i) (Autonomy DIM_MAP));
  Vitality := avg (map (fun i => at_index current i) (Vitality DIM_MAP));
  Peace := avg (map (fun i => at_index current i) (Peace DIM_MAP))
|}.
Definition sectionScenario : ByDimension (option R) := {|
  Fulfillment := avg (map (fun i => at_index scenario i) (Fulfillment DIM_MAP));
  Connection := avg (map (fun i => at_index scenario i) (Connection DIM_MAP));
  Autonomy := avg (map (fun i => at_index scenario i) (Autonomy DIM_MAP));
  Vitality := avg (map (fun i => at_index scenario i) (Vitality DIM_MAP));
  Peace := avg (map (fun i => at_index scenario i) (Peace DIM_MAP))
|}.

Definition baseAvgAll : option R := avg current.
Definition baseAvgAll_scn : option R := avg scenario.

(** 3) Time map defaults *)
Definition find (c : TimeCategory) : TimeRow :=
  List.find (fun r => TimeCategory_eqb (category r) c) (timeMap input)
  ?? {| category := c;
        hours := match c with Sleep => 49 | _ => 0 end;
        ri := 5 |}.

Definition by_ : By.t := {|
  By.Sleep := find Sleep;
  By.Work := find Work;
  By.Commute := find Commute;
  By.Relationships := find Relationships;
  By.Leisure := find Leisure;
  By.Gym := find Gym;
  By.Chores := find Chores;
  By.Growth := find Growth;
  By.Other := find Other
|}.

Definition awakeHours : R := Rmax 0 (168 - hours (By.Sleep by_)).
Definition otherAwake : R :=
  Rmax 0 (awakeHours -
          (hours (By.Work by_) + hours (By.Commute by_) + hours (By.Gym by_)
           + hours (By.Relationships by_) + hours (By.Leisure by_))).

Definition dimQ : Q.t := qualityFromSections sectionCurrent baseAvgAll.
Definition dimQ_s : Q.t :=
  qualityFromSections sectionScenario (coalesce baseAvgAll_scn baseAvgAll).

(** The block [if (cfg.crossLift.enabled) { ... }], which the body has
    twice, word for word: once on [workQ], once on [workQ_s].  [w] is
    the value of that variable when the block is entered, the result
    its value after the block. *)
Definition crossLiftBlock (w : R) : R :=
  if enabled (crossLift cfg) then
    let relFrac :=
      if truthy awakeHours then hours (By.Relationships by_) / awakeHours else 0 in
    let gymFrac :=
      if truthy awakeHours then hours (By.Gym by_) / awakeHours else 0 in
    let leisFrac :=
      if truthy awakeHours then hours (By.Leisure by_) / awakeHours else 0 in
    let relRI := Rmax 0 (riToInternal (Some (ri (By.Relationships by_)))) in
    let gymRI := Rmax 0 (riToInternal (Some (ri (By.Gym by_)))) in
    let leisRI := Rmax 0 (riToInternal (Some (ri (By.Leisure by_)))) in
    let uplift :=
      alpha (crossLift cfg)
      * (relFrac * relRI + gymFrac * gymRI + leisFrac * leisRI)
      * ((10 - w) / 10) in
    Rmin 10 (Rmax 1 (w + uplift))
  else w.

Definition workQ : R := crossLiftBlock (Q.Work dimQ).
Definition commuteQ : R := Q.Commute dimQ.
Definition gymQ : R := Q.Gym dimQ.
Definition relQ : R := Q.Relationships dimQ.
Definition leisQ : R := Q.Leisure dimQ.
Definition otherQ : R := Q.Other dimQ.

Definition awakeWeighted : R :=
  (hours (By.Work by_) * workQ
   + hours (By.Commute by_) * commuteQ
   + hours (By.Gym by_) * gymQ
   + hours (By.Relationships by_) * relQ
   + hours (By.Leisure by_) * leisQ
   + otherAwake * otherQ)
  / or_else awakeHours 1.

Definition sleepQ : R := (10 + awakeWeighted) / 2.

Definition rawLMS : R :=
  (hours (By.Work by_) * workQ
   + hours (By.Commute by_) * commuteQ
   + hours (By.Gym by_) * gymQ
   + hours (By.Relationships by_) * relQ
   + hours (By.Leisure by_) * leisQ
   + otherAwake * otherQ
   + hours (By.Sleep by_) * sleepQ) / 168.

Definition netRI : R :=
  (hours (By.Work by_) / 168) * riToInternal (Some (ri (By.Work by_)))
  + (hours (By.Commute by_) / 168) * riToInternal (Some (ri (By.Commute by_)))
  + (hours (By.Gym by_) / 168) * riToInternal (Some (ri (By.Gym by_)))
  + (hours (By.Relationships by_) / 168)
    * riToInternal (Some (ri (By.Relationships by_)))
  + (hours (By.Leisure by_) / 168) * riToInternal (Some (ri (By.Leisure by_)))
  + (otherAwake / 168) * riToInternal (Some (ri (By.Other by_))).

(** [input.config?.ri?.globalMultiplier] *)
Definition config_ri_globalMultiplier : option R :=
  match config input with
  | Some c =>
      match ri_opt c with
      | Some g => Some (globalMultiplier g)
      | None => None
      end
  | None => None
  end.

Definition riAdjusted : R :=
  rawLMS * (1 + (config_ri_globalMultiplier ?? 1) * netRI).

Definition LMC : R := 10 - 0.2 * (ELI input ?? 1).
Definition finalLMI : R := riAdjusted * (LMC / 10).

(** Scenario.  The fields of [dimQ_s] are numbers, so each of them is
    present ([Some]) on the left of the [??] that follows it. *)
Definition workQ_s : R := crossLiftBlock (Some (Q.Work dimQ_s) ?? workQ).
Definition commuteQ_s : R := Some (Q.Commute dimQ_s) ?? commuteQ.
Definition gymQ_s : R := Some (Q.Gym dimQ_s) ?? gymQ.
Definition relQ_s : R := Some (Q.Relationships dimQ_s) ?? relQ.
Definition leisQ_s : R := Some (Q.Leisure dimQ_s) ?? leisQ.
Definition otherQ_s : R := Some (Q.Other dimQ_s) ?? otherQ.

Definition awakeWeighted_s : R :=
  (hours (By.Work by_) * workQ_s
   + hours (By.Commute by_) * commuteQ_s
   + hours (By.Gym by_) * gymQ_s
   + hours (By.Relationships by_) * relQ_s
   + hours (By.Leisure by_) * leisQ_s
   + otherAwake * otherQ_s)
  / or_else awakeHours 1.

Definition sleepQ_s : R := (10 + awakeWeighted_s) / 2.

Definition rawLMS_s : R :=
  (hours (By.Work by_) * workQ_s
   + hours (By.Commute by_) * commuteQ_s
   + hours (By.Gym by_) * gymQ_s
   + hours (By.Relationships by_) * relQ_s
   + hours (By.Leisure by_) * leisQ_s
   + otherAwake * otherQ_s
   + hours (By.Sleep by_) * sleepQ_s) / 168.

Definition riAdjusted_s : R :=
  rawLMS_s * (1 + (config_ri_globalMultiplier ?? 1) * netRI).
Definition finalLMI_s : R := riAdjusted_s * (LMC / 10).

(** Drainers and uplifters *)
Definition baseScores : list num :=
  map (fun a => match score a with Some v => Fin v | None => NaN end)
      (answers input).

(** [.map((s, i) => ({ i, s })).filter(x => !Number.isNaN(x.s))] *)
Fixpoint not_NaN (l : list (nat * num)) : list Idx.t :=
  match l with
  | [] => []
  | (i, Fin v) :: rest => {| Idx.i := i; Idx.s := v |} :: not_NaN rest
  | (_, NaN) :: rest => not_NaN rest
  end.

Definition idxs : list Idx.t := not_NaN (indexed 0 baseScores).

(** [x => ({ index: x.i, score: x.s, note: input.answers[x.i].note })]:
    reading [.note] of an element that is not there throws. *)
Definition entry (x : Idx.t) : result Top.t :=
  match nth_error (answers input) (Idx.i x) with
  | Some a =>
      Ok {| Top.index := Idx.i x; Top.score := Idx.s x; Top.note := note a |}
  | None => Throw (TypeError "input.answers[x.i] is undefined")
  end.

Definition drains : result (list Top.t) :=
  mapM entry (firstn 3 (sort (fun a b => Idx.s a - Idx.s b) idxs)).
Definition lifts : result (list Top.t) :=
  mapM entry (firstn 3 (sort (fun a b => Idx.s b - Idx.s a) idxs)).

(** The numeric bindings in scope at the [return] statement.  The
    other bindings of the function ([cfg], [current], [scenario],
    [sectionCurrent], [sectionScenario], [baseAvgAll],
    [baseAvgAll_scn], [find], [by], [dimQ], [dimQ_s], [baseScores],
    [idxs], [drains], [lifts]) and of the module ([DEFAULT_CONFIG],
    [DIM_MAP], [riToInternal], [calibrate], [avg],
    [qualityFromSections], [scoreLMI]) hold no number and have other
    names. *)
Definition scope : list (string * R) :=
  [ ("awakeHours", awakeHours); ("otherAwake", otherAwake);
    ("workQ", workQ); ("commuteQ", commuteQ); ("gymQ", gymQ);
    ("relQ", relQ); ("leisQ", leisQ); ("otherQ", otherQ);
    ("awakeWeighted", awakeWeighted); ("sleepQ", sleepQ);
    ("rawLMS", rawLMS); ("netRI", netRI); ("riAdjusted", riAdjusted);
    ("LMC", LMC); ("finalLMI", finalLMI);
    ("workQ_s", workQ_s); ("commuteQ_s", commuteQ_s); ("gymQ_s", gymQ_s);
    ("relQ_s", relQ_s); ("leisQ_s", leisQ_s); ("otherQ_s", otherQ_s);
    ("awakeWeighted_s", awakeWeighted_s); ("sleepQ_s", sleepQ_s);
    ("rawLMS_s", rawLMS_s); ("riAdjusted_s", riAdjusted_s);
    ("finalLMI_s", finalLMI_s) ]%string.

(** A shorthand property [{ name }] reads the binding called [name];
    with no such binding the read throws. *)
Fixpoint lookup (name : string) (sc : list (string * R)) : option R :=
  match sc with
  | [] => None
  | (n, v) :: rest => if String.eqb n name then Some v else lookup name rest
  end.

Definition shorthand (name : string) : result R :=
  match lookup name scope with
  | Some v => Ok v
  | None => Throw (ReferenceError name)
  end.

(** The function: the two [.map] calls that build [drains] and [lifts]
    come before the [return]; the object literal is evaluated property
    by property, in the order written. *)
Definition scoreLMI : result Output :=
  drains' <- drains ;;
  lifts' <- lifts ;;
  rawLMS' <- shorthand "rawLMS" ;;
  riAdjusted' <- shorthand "riAdjusted" ;;
  finalLMI' <- shorthand "finalLMI" ;;
  rawLMS_scn' <- shorthand "rawLMS_scn" ;;
  riAdjusted_scn' <- shorthand "riAdjusted_scn" ;;
  finalLMI_scn' <- shorthand "finalLMI_scn" ;;
  Ok {| calibrated := {| cal_current := current; cal_scenario := scenario |};
        sectionAverages :=
          {| sec_current := sectionCurrent; sec_scenario := sectionScenario |};
        out_rawLMS := rawLMS';
        out_riAdjusted := riAdjusted';
        out_finalLMI := finalLMI';
        rawLMS_scn := rawLMS_scn';
        riAdjusted_scn := riAdjusted_scn';
        finalLMI_scn := finalLMI_scn';
        topDrainers := drains';
        topUplifters := lifts' |}.
End ScoreLMI.

(** ** Inputs and notions the statements use *)

(** The saturation curve at an ordinary [k]: what [calibrate] computes
    once [s] is clamped to [x]. *)
Definition curve (k max x : R) : R :=
  max * ((1 - exp (- k * (x / 10))) / (1 - exp (- k))).

Definition clamp (s : R) : R := Rmax 1 (Rmin 10 s).


(** An answered item with no scenario score and no note. *)
Definition answer_of (v : R) : Answer :=
  {| score := Some v; scenarioScore := None; note := None |}.

(** 24 answers all scored 10, empty time map, [ELI = 1], no config. *)
Definition all10 : Input := {|
  answers := repeat (answer_of 10) 24;
  timeMap := [];
  ELI := Some 1;
  config := None
|}.

(** The same with answer 0 scored 1. *)
Definition one_low : Input := {|
  answers := answer_of 1 :: repeat (answer_of 10) 23;
  timeMap := [];
  ELI := Some 1;
  config := None
|}.

(** Autonomy (answers 10 to 14) scored 10, every other answer scored 1,
    no scenario score anywhere, and 40 hours of work. *)
Definition autonomy_high : Input := {|
  answers :=
    repeat (answer_of 1) 10 ++ repeat (answer_of 10) 5 ++ repeat (answer_of 1) 9;
  timeMap := [ {| category := Work; hours := 40; ri := 5 |} ];
  ELI := Some 1;
  config := None
|}.

(** Everything the body computes on the way to the returned object:
    the calibrated arrays, the section averages, the qualities, every
    numeric binding (by name, as in [scope]) and the two rankings.  The
    resolved rows [by.Chores] and [by.Growth] and [cfg] are not among
    them: nothing is computed from the former two, and of [cfg] only
    what reaches these values matters. *)
Record Values : Type := {
  v_current : list (option num);
  v_scenario : list (option num);
  v_sectionCurrent : ByDimension (option R);
  v_sectionScenario : ByDimension (option R);
  v_dimQ : Q.t;
  v_dimQ_s : Q.t;
  v_numbers : list (string * R);
  v_drains : result (list Top.t);
  v_lifts : result (list Top.t)
}.

Definition values (input : Input) : Values := {|
  v_current := current input;
  v_scenario := scenario input;
  v_sectionCurrent := sectionCurrent input;
  v_sectionScenario := sectionScenario input;
  v_dimQ := dimQ input;
  v_dimQ_s := dimQ_s input;
  v_numbers := scope input;
  v_drains := drains input;
  v_lifts := lifts input
|}.

(** The rows of a time map other than those of Chores and Growth. *)
Definition chores_or_growth (c : TimeCategory) : bool :=
  match c with
  | Chores | Growth => true
  | _ => false
  end.

Definition other_rows (tm : list TimeRow) : list TimeRow :=
  filter (fun r => negb (chores_or_growth (category r))) tm.

(** [input] with its [config.crossLift] replaced. *)
Definition with_crossLift (input : Input) (cl : option CrossLift) : Input := {|
  answers := answers input;
  timeMap := timeMap input;
  ELI := ELI input;
  config := Some {|
    calibration_opt :=
      match config input with Some c => calibration_opt c | None => None end;
    ri_opt :=
      match config input with Some c => ri_opt c | None => None end;
    crossLift_opt := cl
  |}
|}.

(** Sum of the hours of all rows. *)
Definition total_hours (tm : list TimeRow) : R :=
  fold_right (fun r acc => hours r + acc) 0 tm.

(** Order of the entries of [topDrainers]: lower score first, and of two
    equal scores the one that comes first in [answers]. *)
Definition drains_before (x y : Top.t) : Prop :=
  Top.score x < Top.score y
  \/ (Top.score x = Top.score y /\ (Top.index x < Top.index y)%nat).

(** Order of the entries of [topUplifters]: higher score first, same
    rule for ties. *)
Definition lifts_before (x y : Top.t) : Prop :=
  Top.score y < Top.score x
  \/ (Top.score x = Top.score y /\ (Top.index x < Top.index y)%nat).

(** Answer [i] is present, has score [v] and note [n]. *)
Definition answered (input : Input) (i : nat) (v : R) (n : option string) : Prop :=
  exists a, nth_error (answers input) i = Some a /\ score a = Some v /\ note a = n.

(** Number of answered items. *)
Definition answered_count (input : Input) : nat :=
  List.length (filter (fun a => match score a with Some _ => true | None => false end)
                      (answers input)).

(** The order a stable sort by ascending [key] puts items in: smaller
    key first, and of two equal keys the smaller position. *)
Definition before (key : Idx.t -> R) (a b : Idx.t) : Prop :=
  key a < key b \/ (key a = key b /\ (Idx.i a < Idx.i b)%nat).

(** The entry that [entry] returns when it returns one. *)
Definition entry_of (input : Input) (x : Idx.t) : Top.t := {|
  Top.index := Idx.i x;
  Top.score := Idx.s x;
  Top.note :=
    match nth_error (answers input) (Idx.i x) with
    | Some a => note a
    | None => None
    end
|}.

(** A time map with two Work rows and no Sleep row. *)
Definition two_work_rows : Input := {|
  answers := [];
  timeMap := [ {| category := Work; hours := 40; ri := 7 |};
               {| category := Work; hours := 10; ri := 2 |} ];
  ELI := Some 1;
  config := None
|}.

(** One answer and no time row, and the same with a Chores and a Growth
    row. *)
Definition plain_week : Input := {|
  answers := [answer_of 7];
  timeMap := [];
  ELI := Some 1;
  config := None
|}.

Definition week_with_chores : Input := {|
  answers := [answer_of 7];
  timeMap := [ {| category := Chores; hours := 10; ri := 1 |};
               {| category := Growth; hours := 5; ri := 9 |} ];
  ELI := Some 1;
  config := None
|}.

(** Cross-lift switched off with [alpha = 7]. *)
Definition lift_off : Input := {|
  answers := [answer_of 3];
  timeMap := [ {| category := Leisure; hours := 30; ri := 9 |} ];
  ELI := Some 2;
  config := Some {| calibration_opt := None; ri_opt := None;
                    crossLift_opt := Some {| enabled := false; alpha := 7 |} |}
|}.

(** Cross-lift switched on with [alpha = 20]. *)
Definition lift_on : Input := {|
  answers := [];
  timeMap := [ {| category := Leisure; hours := 30; ri := 9 |};
               {| category := Gym; hours := 5; ri := 2 |} ];
  ELI := Some 1;
  config := Some {| calibration_opt := None; ri_opt := None;
                    crossLift_opt := Some {| enabled := true; alpha := 20 |} |}
|}.

(** All 9 categories, 168 hours, every RI neutral. *)
Definition neutral_week : Input := {|
  answers := repeat (answer_of 6) 24;
  timeMap := [ {| category := Sleep; hours := 56; ri := 5 |};
               {| category := Work; hours := 40; ri := 5 |};
               {| category := Commute; hours := 5; ri := 5 |};
               {| category := Relationships; hours := 14; ri := 5 |};
               {| category := Leisure; hours := 14; ri := 5 |};
               {| category := Gym; hours := 4; ri := 5 |};
               {| category := Chores; hours := 10; ri := 5 |};
               {| category := Growth; hours := 5; ri := 5 |};
               {| category := Other; hours := 20; ri := 5 |} ];
  ELI := Some 3;
  config := None
|}.

(** No answers, and more sleep than the week has hours. *)
Definition oversleep : Input := {|
  answers := [];
  timeMap := [ {| category := Sleep; hours := 170; ri := 5 |} ];
  ELI := Some 1;
  config := None
|}.

(** ** Further notions *)

(** [input] with another [ELI]. *)
Definition with_ELI (input : Input) (e : option R) : Input := {|
  answers := answers input;
  timeMap := timeMap input;
  ELI := e;
  config := config input
|}.

(** The hours of the five tracked awake categories, as [otherAwake]
    adds them up. *)
Definition tracked_hours (input : Input) : R :=
  hours (find input Work) + hours (find input Commute) + hours (find input Gym)
  + hours (find input Relationships) + hours (find input Leisure).

(** A time map that fits in the week: no negative hours, sleep within
    the 168 hours, the tracked categories within the hours awake. *)
Definition week_fits (input : Input) : Prop :=
  (forall r, In r (timeMap input) -> 0 <= hours r)
  /\ hours (find input Sleep) <= 168
  /\ tracked_hours input <= 168 - hours (find input Sleep).

(** All six qualities between [lo] and [hi]. *)
Definition Q_within (lo hi : R) (q : Q.t) : Prop :=
  (lo <= Q.Work q <= hi) /\ (lo <= Q.Commute q <= hi)
  /\ (lo <= Q.Gym q <= hi) /\ (lo <= Q.Relationships q <= hi)
  /\ (lo <= Q.Leisure q <= hi) /\ (lo <= Q.Other q <= hi).

(** ** The request handler, [app/api/score/route.ts]

    [POST] parses the request body, calls [scoreLMI] and answers with
    the result; whatever is thrown on the way is caught and answered
    with status 400.  The body either fails to parse or parses to an
    [Input]; the [error] field of a 400 answer is the message of what
    was thrown, kept here as the thrown value itself. *)
Inductive Body : Type :=
| Malformed (why : string)
| Parsed (input : Input).

Inductive Thrown : Type :=
| ParseFailure (why : string)
| Raised (e : Error).

Inductive Payload : Type :=
| Result (o : Output)
| ErrorOf (t : Thrown).

Record Response : Type := { status : nat; payload : Payload }.

Definition POST (body : Body) : Response :=
  match body with
  | Malformed why => {| status := 400; payload := ErrorOf (ParseFailure why) |}
  | Parsed input =>
      match scoreLMI input with
      | Ok result => {| status := 200; payload := Result result |}
      | Throw e => {| status := 400; payload := ErrorOf (Raised e) |}
      end
  end.

(** Inputs for the examples below. *)
Definition two_answers : Input := {|
  answers := [ {| score := Some 4; scenarioScore := Some 4; note := None |};
               {| score := Some 9; scenarioScore := Some 9; note := None |} ];
  timeMap := [ {| category := Sleep; hours := 56; ri := 5 |};
               {| category := Work; hours := 40; ri := 3 |};
               {| category := Leisure; hours := 20; ri := 8 |} ];
  ELI := Some 2;
  config := None
|}.

(** Cross-lift on, nothing answered, no positive RI. *)
Definition lift_on_neutral : Input := {|
  answers := [];
  timeMap := [ {| category := Leisure; hours := 30; ri := 5 |};
               {| category := Gym; hours := 5; ri := 2 |} ];
  ELI := Some 1;
  config := Some {| calibration_opt := None; ri_opt := None;
                    crossLift_opt := Some {| enabled := true; alpha := 20 |} |}
|}.

(** No answer at the positions [dim] has a score. *)
Definition unanswered (input : Input) (dim : list nat) : Prop :=
  forall i a, In i dim -> nth_error (answers input) i = Some a -> score a = None.

(** Three answers and a steepness of 0. *)
Definition flat_steepness : Input := {|
  answers := [answer_of 2; answer_of 5; answer_of 9];
  timeMap := [];
  ELI := Some 1;
  config := Some {| calibration_opt := Some {| k := 0; max := 8.75 |};
                    ri_opt := None; crossLift_opt := None |}
|}.

(** Nothing answered and no time row. *)
Definition blank : Input := {|
  answers := [];
  timeMap := [];
  ELI := Some 1;
  config := None
|}.

(** Cross-lift on, and a Leisure row with negative hours. *)
Definition negative_leisure : Input := {|
  answers := [];
  timeMap := [ {| category := Leisure; hours := - 30; ri := 9 |} ];
  ELI := Some 1;
  config := Some {| calibration_opt := None; ri_opt := None;
                    crossLift_opt := Some {| enabled := true; alpha := 20 |} |}
|}.

(** ** [calibrate] in double arithmetic

    The same function on IEEE-754 doubles.  [+], [-], [*], [/] and the
    comparisons are the operations of binary64.  [Math.exp] is left to
    the engine by ECMAScript, which fixes its value at [NaN], the zeros
    and the infinities only; it is the argument [Math_exp], and
    [ES_exp] says that it meets those cases. *)








(** ** Proof steps used throughout *)

(** Unfold what the list functions do on a list given in full. *)
Ltac eval_lists :=
  cbn [DIM_MAP Fulfillment Connection Autonomy Vitality Peace map at_index nth
       repeat app avg numbers is_number fold_left List.length].

(** Decide the comparisons of [Math.max], [Math.min], [||] and
    [riToInternal] on given numbers. *)
Ltac eval_guards :=
  unfold or_else, truthy, Rmax, Rmin;
  repeat match goal with
         | |- context [Rle_dec ?a ?b] => destruct (Rle_dec a b); try lra
         | |- context [Req_dec_T ?a ?b] => destruct (Req_dec_T a b); try lra
         | |- context [Rlt_dec ?a ?b] => destruct (Rlt_dec a b); try lra
         end.

(** * Properties *)

(** ** The calibrator *)

Lemma clamp_range (s : R) : 1 <= clamp s <= 10.
Proof.
  unfold clamp, Rmax, Rmin.
  destruct (Rle_dec 10 s); destruct (Rle_dec 1 _); lra.
Qed.

Lemma clamp_inside (s : R) : 1 <= s <= 10 -> clamp s = s.
Proof.
  intros Hs. unfold clamp, Rmax, Rmin.
  destruct (Rle_dec 10 s); destruct (Rle_dec 1 _); lra.
Qed.

Lemma clamp_above (s : R) : 10 <= s -> clamp s = 10.
Proof.
  intros Hs. unfold clamp, Rmax, Rmin.
  destruct (Rle_dec 10 s); destruct (Rle_dec 1 _); lra.
Qed.

Lemma clamp_below (s : R) : s <= 1 -> clamp s = 1.
Proof.
  intros Hs. unfold clamp, Rmax, Rmin.
  destruct (Rle_dec 10 s); destruct (Rle_dec 1 _); lra.
Qed.

Lemma clamp_monotone (s1 s2 : R) : s1 <= s2 -> clamp s1 <= clamp s2.
Proof.
  intros Hs. unfold clamp, Rmax, Rmin.
  repeat destruct (Rle_dec _ _); lra.
Qed.

Lemma exp_monotone (x y : R) : x <= y -> exp x <= exp y.
Proof.
  intros [Hlt | ->].
  - left. now apply exp_increasing.
  - right. reflexivity.
Qed.

Lemma exp_neg_lt_1 (x : R) : 0 < x -> exp (- x) < 1.
Proof.
  intros Hx. rewrite <- exp_0. apply exp_increasing. lra.
Qed.

Lemma den_pos (k : R) : 0 < k -> 0 < 1 - exp (- k).
Proof.
  intros Hk. pose proof (exp_neg_lt_1 Hk). lra.
Qed.

(** With [k = 0] the divisor vanishes, and so does the dividend. *)
Lemma calibrate_zero_den (k x : R) :
  1 - exp (- k) = 0 -> 1 - exp (- k * (x / 10)) = 0.
Proof.
  intros Hden.
  assert (Hk : k = 0).
  { destruct (Rtotal_order k 0) as [Hlt | [Heq | Hgt]]; trivial.
    - assert (exp 0 < exp (- k)) by (apply exp_increasing; lra).
      rewrite exp_0 in *. lra.
    - pose proof (exp_neg_lt_1 Hgt). lra. }
  subst k. replace (- 0 * (x / 10)) with 0 by lra. rewrite exp_0. lra.
Qed.

Lemma calibrate_curve (s k max : R) :
  0 < k -> calibrate (Some s) k max = Some (Fin (curve k max (clamp s))).
Proof.
  intros Hk. unfold calibrate, jsdiv, curve, clamp.
  pose proof (den_pos Hk).
  destruct (Req_dec_T (1 - exp (- k)) 0); [lra | reflexivity].
Qed.

Lemma curve_at_10 (k max : R) : 0 < k -> curve k max 10 = max.
Proof.
  intros Hk. unfold curve. pose proof (den_pos Hk).
  replace (- k * (10 / 10)) with (- k) by lra.
  field. lra.
Qed.

Lemma ratio_monotone (k x y : R) :
  0 < k -> x <= y ->
  (1 - exp (- k * (x / 10))) / (1 - exp (- k))
  <= (1 - exp (- k * (y / 10))) / (1 - exp (- k)).
Proof.
  intros Hk Hxy. pose proof (den_pos Hk) as Hden.
  assert (exp (- k * (y / 10)) <= exp (- k * (x / 10))).
  { apply exp_monotone. nra. }
  unfold Rdiv. apply Rmult_le_compat_r.
  - left. now apply Rinv_0_lt_compat.
  - lra.
Qed.

Lemma ratio_pos (k x : R) :
  0 < k -> 0 < x ->
  0 < (1 - exp (- k * (x / 10))) / (1 - exp (- k)).
Proof.
  intros Hk Hx. pose proof (den_pos Hk) as Hden.
  assert (exp (- (k * (x / 10))) < 1).
  { apply exp_neg_lt_1. apply Rmult_lt_0_compat; lra. }
  replace (- k * (x / 10)) with (- (k * (x / 10))) by lra.
  apply Rdiv_lt_0_compat; lra.
Qed.

Lemma ratio_lt_1 (k x : R) :
  0 < k -> x < 10 ->
  (1 - exp (- k * (x / 10))) / (1 - exp (- k)) < 1.
Proof.
  intros Hk Hx. pose proof (den_pos Hk) as Hden.
  assert (exp (- k) < exp (- k * (x / 10))).
  { apply exp_increasing. nra. }
  apply Rmult_lt_reg_r with (1 - exp (- k)); trivial.
  unfold Rdiv. rewrite Rmult_assoc, Rinv_l by lra. lra.
Qed.

Lemma curve_monotone (k max x y : R) :
  0 < k -> 0 < max -> x <= y -> curve k max x <= curve k max y.
Proof.
  intros Hk Hm Hxy. unfold curve.
  apply Rmult_le_compat_l; [lra | now apply ratio_monotone].
Qed.

Lemma curve_pos (k max x : R) :
  0 < k -> 0 < max -> 0 < x -> 0 < curve k max x.
Proof.
  intros Hk Hm Hx. unfold curve.
  apply Rmult_lt_0_compat; [lra | now apply ratio_pos].
Qed.

Lemma curve_below_max (k max x : R) :
  0 < k -> 0 < max -> x < 10 -> curve k max x < max.
Proof.
  intros Hk Hm Hx. unfold curve.
  pose proof (ratio_lt_1 Hk Hx). nra.
Qed.

Lemma curve_le_max (k max x : R) :
  0 < k -> 0 < max -> x <= 10 -> curve k max x <= max.
Proof.
  intros Hk Hm Hx. rewrite <- (curve_at_10 max Hk) at 2.
  now apply curve_monotone.
Qed.

(** Over the reals, for every [k > 0] and [max > 0]: [calibrate] is
    non-decreasing in [s] (on [[1,10]] and, because of the clamp,
    everywhere); [calibrate(10)] is [max]; [calibrate(1)] is positive;
    an absent score calibrates to [undefined]; a score outside [[1,10]]
    is clamped first; and every defined result lies in [(0, max]]. *)
Theorem calibrate_contract (k max : R) (Hk : 0 < k) (Hmax : 0 < max) :
  (forall s1 s2, 1 <= s1 -> s1 <= s2 -> s2 <= 10 ->
     exists c1 c2,
       calibrate (Some s1) k max = Some (Fin c1) /\
       calibrate (Some s2) k max = Some (Fin c2) /\ c1 <= c2)
  /\ (forall s1 s2, s1 <= s2 ->
     exists c1 c2,
       calibrate (Some s1) k max = Some (Fin c1) /\
       calibrate (Some s2) k max = Some (Fin c2) /\ c1 <= c2)
  /\ calibrate (Some 10) k max = Some (Fin max)
  /\ (exists c, calibrate (Some 1) k max = Some (Fin c) /\ 0 < c)
  /\ calibrate None k max = None
  /\ (forall s, 10 <= s -> calibrate (Some s) k max = calibrate (Some 10) k max)
  /\ (forall s, s <= 1 -> calibrate (Some s) k max = calibrate (Some 1) k max)
  /\ calibrate (Some 15) k max = calibrate (Some 10) k max
  /\ (forall s, exists c,
        calibrate (Some s) k max = Some (Fin c) /\ 0 < c /\ c <= max).
Proof.
  assert (Hmono : forall s1 s2, s1 <= s2 ->
     exists c1 c2,
       calibrate (Some s1) k max = Some (Fin c1) /\
       calibrate (Some s2) k max = Some (Fin c2) /\ c1 <= c2).
  { intros s1 s2 Hs. exists (curve k max (clamp s1)), (curve k max (clamp s2)).
    repeat split; try now apply calibrate_curve.
    apply curve_monotone; trivial. now apply clamp_monotone. }
  repeat split.
  - intros s1 s2 _ Hs _. now apply Hmono.
  - exact Hmono.
  - rewrite calibrate_curve, clamp_inside, curve_at_10; trivial; lra.
  - exists (curve k max 1). split.
    + rewrite calibrate_curve, clamp_inside; trivial; lra.
    + apply curve_pos; trivial; lra.
  - intros s Hs. rewrite !calibrate_curve, clamp_above, clamp_inside; trivial; lra.
  - intros s Hs. rewrite !calibrate_curve, clamp_below, clamp_inside; trivial; lra.
  - rewrite !calibrate_curve, clamp_above, clamp_inside; trivial; lra.
  - intros s. exists (curve k max (clamp s)).
    pose proof (clamp_range s) as [Hlo Hhi].
    split; [now apply calibrate_curve | split].
    + apply curve_pos; trivial; lra.
    + now apply curve_le_max.
Qed.

Lemma calibrate_contract_default :
  0 < 1.936428228 /\ 0 < 8.75 /\
  calibrate (Some 15) 1.936428228 8.75 = calibrate (Some 10) 1.936428228 8.75.
Proof.
  assert (Hk : 0 < 1.936428228) by lra.
  assert (Hm : 0 < 8.75) by lra.
  split; [exact Hk | split; [exact Hm |]].
  apply (calibrate_contract Hk Hm).
Defined.





(** ** Evaluating the body at given inputs *)

Lemma calibrate_default_10 :
  calibrate (Some 10) 1.936428228 8.75 = Some (Fin 8.75).
Proof.
  rewrite calibrate_curve, clamp_inside, curve_at_10; trivial; lra.
Qed.

Lemma calibrate_default_1 :
  calibrate (Some 1) 1.936428228 8.75 = Some (Fin (curve 1.936428228 8.75 1)).
Proof.
  rewrite calibrate_curve, clamp_inside; trivial; lra.
Qed.

Lemma curve_default_1 :
  0 < curve 1.936428228 8.75 1 < 8.75.
Proof.
  split.
  - apply curve_pos; lra.
  - apply curve_below_max; lra.
Qed.

Lemma riToInternal_5 : riToInternal (Some 5) = 0.
Proof. unfold riToInternal. eval_guards. Qed.

Lemma current_all10 : current all10 = repeat (Some (Fin 8.75)) 24.
Proof.
  unfold current, cfg.
  cbn [config all10 answers nullish calibration DEFAULT_CONFIG k max repeat map
       answer_of score].
  rewrite calibrate_default_10. reflexivity.
Qed.

Lemma sectionCurrent_all10 :
  sectionCurrent all10 =
  {| Fulfillment := Some 8.75; Connection := Some 8.75; Autonomy := Some 8.75;
     Vitality := Some 8.75; Peace := Some 8.75 |}.
Proof.
  unfold sectionCurrent. rewrite current_all10. eval_lists.
  repeat f_equal; cbn [INR]; lra.
Qed.

Lemma baseAvgAll_all10 : baseAvgAll all10 = Some 8.75.
Proof.
  unfold baseAvgAll. rewrite current_all10. eval_lists.
  f_equal. cbn [INR]. lra.
Qed.

Lemma dimQ_all10 :
  dimQ all10 =
  {| Q.Work := 8.75; Q.Commute := 8.75; Q.Gym := 8.75;
     Q.Relationships := 8.75; Q.Leisure := 8.75; Q.Other := 8.75 |}.
Proof.
  unfold dimQ. rewrite sectionCurrent_all10, baseAvgAll_all10. reflexivity.
Qed.

Lemma by_empty (input : Input) :
  timeMap input = [] ->
  by_ input =
  {| By.Sleep := {| category := Sleep; hours := 49; ri := 5 |};
     By.Work := {| category := Work; hours := 0; ri := 5 |};
     By.Commute := {| category := Commute; hours := 0; ri := 5 |};
     By.Relationships := {| category := Relationships; hours := 0; ri := 5 |};
     By.Leisure := {| category := Leisure; hours := 0; ri := 5 |};
     By.Gym := {| category := Gym; hours := 0; ri := 5 |};
     By.Chores := {| category := Chores; hours := 0; ri := 5 |};
     By.Growth := {| category := Growth; hours := 0; ri := 5 |};
     By.Other := {| category := Other; hours := 0; ri := 5 |} |}.
Proof.
  intros Htm. unfold by_, find. rewrite Htm. reflexivity.
Qed.

Lemma awake_empty (input : Input) :
  timeMap input = [] -> awakeHours input = 119 /\ otherAwake input = 119.
Proof.
  intros Htm.
  assert (Ha : awakeHours input = 119).
  { unfold awakeHours. rewrite (by_empty input Htm). cbn [By.Sleep hours].
    eval_guards. }
  split; trivial.
  unfold otherAwake. rewrite Ha, (by_empty input Htm).
  cbn [By.Work By.Commute By.Gym By.Relationships By.Leisure hours].
  eval_guards.
Qed.

Lemma crossLiftBlock_default (input : Input) (w : R) :
  config input = None -> crossLiftBlock input w = w.
Proof.
  intros Hc. unfold crossLiftBlock, cfg. rewrite Hc. reflexivity.
Qed.

Lemma netRI_empty (input : Input) : timeMap input = [] -> netRI input = 0.
Proof.
  intros Htm. unfold netRI. rewrite (by_empty input Htm).
  cbn [By.Work By.Commute By.Gym By.Relationships By.Leisure By.Other hours ri].
  rewrite riToInternal_5. lra.
Qed.

Lemma rawLMS_empty (input : Input) :
  timeMap input = [] ->
  rawLMS input = (119 * otherQ input + 49 * ((10 + otherQ input) / 2)) / 168.
Proof.
  intros Htm. destruct (awake_empty input Htm) as [Ha Ho].
  unfold rawLMS, sleepQ, awakeWeighted. rewrite Ha, Ho, (by_empty input Htm).
  cbn [By.Sleep By.Work By.Commute By.Gym By.Relationships By.Leisure hours].
  unfold or_else, truthy. destruct (Req_dec_T 119 0); [lra |]. field.
Qed.

Lemma LMC_ELI_1 (input : Input) : ELI input = Some 1 -> LMC input = 9.8.
Proof. intros He. unfold LMC. rewrite He. cbn [nullish]. lra. Qed.

Lemma otherQ_all10 : otherQ all10 = 8.75.
Proof. unfold otherQ. now rewrite dimQ_all10. Qed.

Lemma rawLMS_all10 : rawLMS all10 = 1715 / 192.
Proof. rewrite rawLMS_empty, otherQ_all10 by reflexivity. lra. Qed.

Lemma riAdjusted_all10 : riAdjusted all10 = 1715 / 192.
Proof.
  unfold riAdjusted. rewrite rawLMS_all10, netRI_empty by reflexivity. lra.
Qed.

Lemma finalLMI_all10 : finalLMI all10 = 16807 / 1920.
Proof.
  unfold finalLMI. rewrite riAdjusted_all10, LMC_ELI_1 by reflexivity. lra.
Qed.

(** C2, as the code has it.  For 24 answers all scored 10, no scenario
    score, an empty time map, [ELI = 1] and the default config: every
    calibrated value is [max = 8.75], every section average is 8.75,
    [netRI = 0] and [LMC = 9.8]; the 119 awake hours are scored 8.75 and
    the 49 default sleep hours [(10 + 8.75) / 2], so [rawLMS] and
    [riAdjusted] are [1715/192] (about 8.932) and [finalLMI] is
    [riAdjusted * 0.98 = 16807/1920] (about 8.754). *)
Theorem all10_scores :
  current all10 = repeat (Some (Fin 8.75)) 24
  /\ sectionCurrent all10 =
     {| Fulfillment := Some 8.75; Connection := Some 8.75;
        Autonomy := Some 8.75; Vitality := Some 8.75; Peace := Some 8.75 |}
  /\ netRI all10 = 0
  /\ LMC all10 = 9.8
  /\ sleepQ all10 = (10 + 8.75) / 2
  /\ rawLMS all10 = 1715 / 192
  /\ riAdjusted all10 = 1715 / 192
  /\ finalLMI all10 = riAdjusted all10 * 0.98
  /\ finalLMI all10 = 16807 / 1920.
Proof.
  assert (Htm : timeMap all10 = []) by reflexivity.
  repeat split.
  - apply current_all10.
  - apply sectionCurrent_all10.
  - now apply netRI_empty.
  - now apply LMC_ELI_1.
  - destruct (awake_empty all10 Htm) as [Ha Ho].
    unfold sleepQ, awakeWeighted.
    rewrite Ha, Ho, (by_empty all10 Htm), otherQ_all10.
    cbn [By.Work By.Commute By.Gym By.Relationships By.Leisure hours].
    unfold or_else, truthy. destruct (Req_dec_T 119 0); lra.
  - apply rawLMS_all10.
  - apply riAdjusted_all10.
  - unfold finalLMI. rewrite LMC_ELI_1 by reflexivity. lra.
  - apply finalLMI_all10.
Qed.

(** C2, as the specification states it, fails: none of the three scores
    is [8.75 * 0.98]. *)
Lemma all10_scores_not_8575 :
  rawLMS all10 <> 8.75 * 0.98
  /\ riAdjusted all10 <> 8.75 * 0.98
  /\ finalLMI all10 <> 8.75 * 0.98.
Proof.
  rewrite rawLMS_all10, riAdjusted_all10, finalLMI_all10.
  repeat split; lra.
Qed.

(** ** The time allocation resolver *)

Lemma TimeCategory_eqb_eq (a b : TimeCategory) :
  TimeCategory_eqb a b = true <-> a = b.
Proof.
  split.
  - destruct a, b; simpl; intros H; try reflexivity; discriminate H.
  - intros ->. destruct b; reflexivity.
Qed.

Lemma TimeCategory_eqb_neq (a b : TimeCategory) :
  TimeCategory_eqb a b = false <-> a <> b.
Proof.
  rewrite <- TimeCategory_eqb_eq.
  destruct (TimeCategory_eqb a b); split; congruence.
Qed.

Lemma find_first (input : Input) (c : TimeCategory)
      (pre post : list TimeRow) (r : TimeRow) :
  timeMap input = pre ++ r :: post ->
  category r = c ->
  (forall r', In r' pre -> category r' <> c) ->
  find input c = r.
Proof.
  intros Htm Hr Hpre. unfold find. rewrite Htm. clear Htm.
  induction pre as [| p pre IH]; cbn [app List.find].
  - apply TimeCategory_eqb_eq in Hr. now rewrite Hr.
  - assert (Hp : TimeCategory_eqb (category p) c = false).
    { apply TimeCategory_eqb_neq, Hpre. now left. }
    rewrite Hp. apply IH. intros r' Hin. apply Hpre. now right.
Qed.

Lemma find_absent (input : Input) (c : TimeCategory) :
  (forall r, In r (timeMap input) -> category r <> c) ->
  find input c =
  {| category := c; hours := match c with Sleep => 49 | _ => 0 end; ri := 5 |}.
Proof.
  intros Habs. unfold find.
  destruct (List.find _ (timeMap input)) as [r |] eqn:Hf; [| reflexivity].
  apply find_some in Hf as [Hin Heq].
  apply TimeCategory_eqb_eq in Heq. now apply Habs in Hin.
Qed.

(** The row found is a row of the map or the default row. *)
Lemma find_cases (input : Input) (c : TimeCategory) :
  (In (find input c) (timeMap input) /\ category (find input c) = c)
  \/ find input c =
     {| category := c; hours := match c with Sleep => 49 | _ => 0 end; ri := 5 |}.
Proof.
  unfold find.
  destruct (List.find _ (timeMap input)) as [r |] eqn:Hf; [left | now right].
  apply find_some in Hf as [Hin Heq].
  apply TimeCategory_eqb_eq in Heq. now split.
Qed.

(** C5.  Each of the 9 categories is resolved by exact lookup of its
    label, the first matching row winning; an absent Sleep row defaults
    to 49 hours with RI 5 and any other absent category to 0 hours with
    RI 5; [awakeHours = max(0, 168 - Sleep.hours)] and [otherAwake =
    max(0, awakeHours - (Work + Commute + Gym + Relationships + Leisure
    hours))]. *)
Theorem resolver_contract (input : Input) :
  by_ input =
  {| By.Sleep := find input Sleep; By.Work := find input Work;
     By.Commute := find input Commute;
     By.Relationships := find input Relationships;
     By.Leisure := find input Leisure; By.Gym := find input Gym;
     By.Chores := find input Chores; By.Growth := find input Growth;
     By.Other := find input Other |}
  /\ (forall c pre r post,
        timeMap input = pre ++ r :: post ->
        category r = c ->
        (forall r', In r' pre -> category r' <> c) ->
        find input c = r)
  /\ ((forall r, In r (timeMap input) -> category r <> Sleep) ->
      find input Sleep = {| category := Sleep; hours := 49; ri := 5 |})
  /\ (forall c, c <> Sleep ->
        (forall r, In r (timeMap input) -> category r <> c) ->
        find input c = {| category := c; hours := 0; ri := 5 |})
  /\ awakeHours input = Rmax 0 (168 - hours (find input Sleep))
  /\ otherAwake input =
     Rmax 0 (awakeHours input
             - (hours (find input Work) + hours (find input Commute)
                + hours (find input Gym) + hours (find input Relationships)
                + hours (find input Leisure))).
Proof.
  repeat split.
  - intros c pre r post. apply find_first.
  - intros Habs. now rewrite find_absent.
  - intros c Hc Habs. rewrite find_absent by exact Habs.
    destruct c; try reflexivity. now contradiction Hc.
Qed.

(** With two Work rows and no Sleep row, the first Work row is the one
    resolved and Sleep gets its default. *)
Lemma resolver_contract_duplicates :
  find two_work_rows Work = {| category := Work; hours := 40; ri := 7 |}
  /\ find two_work_rows Sleep = {| category := Sleep; hours := 49; ri := 5 |}.
Proof.
  destruct (resolver_contract two_work_rows) as (_ & Hfirst & Hsleep & _).
  split.
  - apply (Hfirst Work [] _ [ {| category := Work; hours := 10; ri := 2 |} ]).
    + reflexivity.
    + reflexivity.
    + intros r' [].
  - apply Hsleep. intros r [<- | [<- | []]]; discriminate.
Defined.

Lemma find_hours_nonneg (input : Input) (c : TimeCategory) :
  (forall r, In r (timeMap input) -> 0 <= hours r) ->
  0 <= hours (find input c).
Proof.
  intros Hnn. destruct (find_cases input c) as [[Hin _] | ->].
  - now apply Hnn.
  - destruct c; cbn [hours]; lra.
Qed.

Lemma awakeHours_nonneg (input : Input) : 0 <= awakeHours input.
Proof. unfold awakeHours. apply Rmax_l. Qed.

Lemma fraction_nonneg (h awake : R) :
  0 <= h -> 0 <= awake -> 0 <= (if truthy awake then h / awake else 0).
Proof.
  intros Hh Ha. unfold truthy.
  destruct (Req_dec_T awake 0); [lra |].
  apply Rmult_le_pos; [exact Hh |].
  left. apply Rinv_0_lt_compat. lra.
Qed.

(** The lift that the block adds is not negative. *)
Lemma uplift_nonneg (al f1 r1 f2 r2 f3 r3 w : R) :
  0 <= al -> 0 <= f1 -> 0 <= f2 -> 0 <= f3 -> w <= 10 ->
  0 <= al * (f1 * Rmax 0 r1 + f2 * Rmax 0 r2 + f3 * Rmax 0 r3) * ((10 - w) / 10).
Proof.
  intros Hal H1 H2 H3 Hw.
  pose proof (Rmax_l 0 r1). pose proof (Rmax_l 0 r2). pose proof (Rmax_l 0 r3).
  apply Rmult_le_pos; [apply Rmult_le_pos; trivial |].
  - repeat apply Rplus_le_le_0_compat; now apply Rmult_le_pos.
  - lra.
Qed.

Lemma clamp_after_lift (w u : R) :
  1 <= w <= 10 -> 0 <= u -> w <= Rmin 10 (Rmax 1 (w + u)) <= 10.
Proof.
  intros Hw Hu. unfold Rmin, Rmax.
  destruct (Rle_dec 1 (w + u)); destruct (Rle_dec 10 _); lra.
Qed.

(** C8, as the code has it.  With [crossLift.enabled] true and
    [alpha >= 0], on any time map whose hours are not negative and any Work
    quality [w] in [[1,10]] entering the block, the Work quality that
    leaves it is at least [w] and at most 10; this holds of the current
    run's [workQ] and of the scenario run's [workQ_s]. *)
Theorem crossLift_only_lifts (input : Input)
        (Hon : enabled (crossLift (cfg input)) = true)
        (Halpha : 0 <= alpha (crossLift (cfg input)))
        (Hhours : forall r, In r (timeMap input) -> 0 <= hours r) :
  (forall w, 1 <= w <= 10 ->
     w <= crossLiftBlock input w /\ crossLiftBlock input w <= 10)
  /\ (1 <= Q.Work (dimQ input) <= 10 ->
      Q.Work (dimQ input) <= workQ input /\ workQ input <= 10)
  /\ (1 <= Q.Work (dimQ_s input) <= 10 ->
      Q.Work (dimQ_s input) <= workQ_s input /\ workQ_s input <= 10).
Proof.
  assert (Hblock : forall w, 1 <= w <= 10 ->
            w <= crossLiftBlock input w /\ crossLiftBlock input w <= 10).
  { intros w Hw. unfold crossLiftBlock. rewrite Hon.
    cbv zeta. apply clamp_after_lift; [exact Hw |].
    pose proof (awakeHours_nonneg input) as Ha.
    apply uplift_nonneg; trivial; try lra;
      apply fraction_nonneg; trivial; now apply find_hours_nonneg. }
  repeat split; try (intros Hq; now apply Hblock); now apply Hblock.
Qed.

Lemma crossLift_only_lifts_example :
  enabled (crossLift (cfg lift_on)) = true
  /\ 0 <= alpha (crossLift (cfg lift_on))
  /\ 4 <= crossLiftBlock lift_on 4 /\ crossLiftBlock lift_on 4 <= 10.
Proof.
  assert (Hon : enabled (crossLift (cfg lift_on)) = true) by reflexivity.
  assert (Halpha : 0 <= alpha (crossLift (cfg lift_on))) by (simpl; lra).
  assert (Hhours : forall r, In r (timeMap lift_on) -> 0 <= hours r).
  { intros r [<- | [<- | []]]; simpl; lra. }
  split; [exact Hon |]. split; [exact Halpha |].
  apply (crossLift_only_lifts lift_on Hon Halpha Hhours). lra.
Defined.

Lemma riToInternal_9 : riToInternal (Some 9) = 0.24.
Proof. unfold riToInternal. eval_guards. Qed.

(** The block on a Work quality of 4, when the time map is a single
    Leisure row of -30 hours with RI 9 and [alpha] is 20. *)
Lemma crossLiftBlock_negative_leisure (input : Input) :
  timeMap input = [ {| category := Leisure; hours := - 30; ri := 9 |} ] ->
  crossLift (cfg input) = {| enabled := true; alpha := 20 |} ->
  crossLiftBlock input 4 = 1948 / 595.
Proof.
  intros Htm Hcl.
  assert (Hby : forall c, find input c =
            match c with
            | Leisure => {| category := Leisure; hours := - 30; ri := 9 |}
            | Sleep => {| category := Sleep; hours := 49; ri := 5 |}
            | _ => {| category := c; hours := 0; ri := 5 |}
            end).
  { intros c. unfold find. rewrite Htm. destruct c; reflexivity. }
  assert (Ha : awakeHours input = 119).
  { unfold awakeHours, by_. cbn [By.Sleep]. rewrite Hby. cbn [hours].
    eval_guards. }
  unfold crossLiftBlock. rewrite Hcl. cbn [enabled alpha]. cbv zeta.
  rewrite Ha. unfold by_. cbn [By.Relationships By.Gym By.Leisure].
  rewrite !Hby. cbn [hours ri]. rewrite riToInternal_5, riToInternal_9.
  unfold truthy. destruct (Req_dec_T 119 0); [lra |].
  unfold Rmax, Rmin. repeat destruct (Rle_dec _ _); lra.
Qed.

(** C8, as the specification states it, fails.  With cross-lift on,
    [alpha = 20] and a Leisure row of -30 hours with RI 9, a Work
    quality of 4 leaves the block as [1948/595] (about 3.27): the
    RI term is clamped, the hours are not. *)
Lemma crossLift_lowers_on_negative_hours :
  enabled (crossLift (cfg negative_leisure)) = true
  /\ 0 <= alpha (crossLift (cfg negative_leisure))
  /\ 1 <= 4 <= 10
  /\ crossLiftBlock negative_leisure 4 = 1948 / 595
  /\ ~ (4 <= crossLiftBlock negative_leisure 4).
Proof.
  assert (Hblock : crossLiftBlock negative_leisure 4 = 1948 / 595)
    by (apply crossLiftBlock_negative_leisure; reflexivity).
  split; [reflexivity |].
  split; [simpl; lra |].
  split; [lra |].
  split; [exact Hblock |].
  rewrite Hblock. lra.
Qed.

(** ** Relative impact *)

Lemma riToInternal_1 : riToInternal (Some 1) = - 0.30.
Proof. unfold riToInternal. eval_guards. Qed.

Lemma riToInternal_10 : riToInternal (Some 10) = 0.30.
Proof. unfold riToInternal. eval_guards. Qed.

Lemma find_ri_neutral (input : Input) (c : TimeCategory) :
  (forall r, In r (timeMap input) -> ri r = 5) -> ri (find input c) = 5.
Proof.
  intros Hri. destruct (find_cases input c) as [[Hin _] | ->].
  - now apply Hri.
  - reflexivity.
Qed.

(** C6.  When all 9 categories are supplied, the hours sum to 168 and
    every row has RI 5, [netRI] is 0 and [riAdjusted] is [rawLMS]
    exactly: [riToInternal(5) = 0], so the RI correction multiplies by
    1. *)
Theorem neutral_ri_is_identity (input : Input)
        (Hall : forall c, exists r, In r (timeMap input) /\ category r = c)
        (Hsum : total_hours (timeMap input) = 168)
        (Hri : forall r, In r (timeMap input) -> ri r = 5) :
  riToInternal (Some 5) = 0
  /\ netRI input = 0
  /\ riAdjusted input = rawLMS input.
Proof.
  assert (Hnet : netRI input = 0).
  { unfold netRI, by_.
    cbn [By.Work By.Commute By.Gym By.Relationships By.Leisure By.Other].
    rewrite !find_ri_neutral, riToInternal_5 by exact Hri. lra. }
  repeat split.
  - apply riToInternal_5.
  - exact Hnet.
  - unfold riAdjusted. rewrite Hnet. lra.
Qed.

Lemma neutral_ri_is_identity_example :
  total_hours (timeMap neutral_week) = 168
  /\ netRI neutral_week = 0
  /\ riAdjusted neutral_week = rawLMS neutral_week.
Proof.
  assert (Hall : forall c, exists r,
             In r (timeMap neutral_week) /\ category r = c).
  { intros c.
    exists {| category := c;
              hours := match c with
                       | Sleep => 56 | Work => 40 | Commute => 5
                       | Relationships => 14 | Leisure => 14 | Gym => 4
                       | Chores => 10 | Growth => 5 | Other => 20
                       end;
              ri := 5 |}.
    split; [| reflexivity].
    destruct c; simpl; tauto. }
  assert (Hsum : total_hours (timeMap neutral_week) = 168) by (simpl; lra).
  assert (Hri : forall r, In r (timeMap neutral_week) -> ri r = 5).
  { intros r Hin. simpl in Hin.
    repeat (destruct Hin as [<- | Hin]; [reflexivity |]). destruct Hin. }
  split; [exact Hsum |].
  apply (neutral_ri_is_identity neutral_week Hall Hsum Hri).
Defined.

(** ** What the computed values depend on *)

(** The values are determined by the answers, [ELI], the calibration
    group, the multiplier read from the config, the rows resolved for the
    seven categories other than Chores and Growth, and the effect of the
    cross-lift block. *)
Lemma values_ext (i1 i2 : Input) :
  answers i1 = answers i2 ->
  ELI i1 = ELI i2 ->
  calibration (cfg i1) = calibration (cfg i2) ->
  config_ri_globalMultiplier i1 = config_ri_globalMultiplier i2 ->
  (forall c, chores_or_growth c = false -> find i1 c = find i2 c) ->
  (forall w, crossLiftBlock i1 w = crossLiftBlock i2 w) ->
  values i1 = values i2.
Proof.
  intros Hans Heli Hcal Hgm Hfind Hlift.
  assert (Hcur : current i1 = current i2).
  { unfold current. now rewrite Hans, Hcal. }
  assert (Hscn : scenario i1 = scenario i2).
  { unfold scenario. now rewrite Hans, Hcal. }
  assert (Hsc : sectionCurrent i1 = sectionCurrent i2).
  { unfold sectionCurrent. now rewrite Hcur. }
  assert (Hss : sectionScenario i1 = sectionScenario i2).
  { unfold sectionScenario. now rewrite Hscn. }
  assert (Hb : baseAvgAll i1 = baseAvgAll i2).
  { unfold baseAvgAll. now rewrite Hcur. }
  assert (Hbs : baseAvgAll_scn i1 = baseAvgAll_scn i2).
  { unfold baseAvgAll_scn. now rewrite Hscn. }
  assert (Hq : dimQ i1 = dimQ i2).
  { unfold dimQ. now rewrite Hsc, Hb. }
  assert (Hqs : dimQ_s i1 = dimQ_s i2).
  { unfold dimQ_s. now rewrite Hss, Hbs, Hb. }
  assert (HSleep : By.Sleep (by_ i1) = By.Sleep (by_ i2)) by now apply Hfind.
  assert (HWork : By.Work (by_ i1) = By.Work (by_ i2)) by now apply Hfind.
  assert (HCommute : By.Commute (by_ i1) = By.Commute (by_ i2))
    by now apply Hfind.
  assert (HRel : By.Relationships (by_ i1) = By.Relationships (by_ i2))
    by now apply Hfind.
  assert (HLeisure : By.Leisure (by_ i1) = By.Leisure (by_ i2))
    by now apply Hfind.
  assert (HGym : By.Gym (by_ i1) = By.Gym (by_ i2)) by now apply Hfind.
  assert (HOther : By.Other (by_ i1) = By.Other (by_ i2)) by now apply Hfind.
  assert (Hawake : awakeHours i1 = awakeHours i2).
  { unfold awakeHours. now rewrite HSleep. }
  assert (Hoa : otherAwake i1 = otherAwake i2).
  { unfold otherAwake.
    now rewrite Hawake, HWork, HCommute, HGym, HRel, HLeisure. }
  assert (Hw : workQ i1 = workQ i2).
  { unfold workQ. now rewrite Hlift, Hq. }
  assert (Hc : commuteQ i1 = commuteQ i2) by (unfold commuteQ; now rewrite Hq).
  assert (Hg : gymQ i1 = gymQ i2) by (unfold gymQ; now rewrite Hq).
  assert (Hr : relQ i1 = relQ i2) by (unfold relQ; now rewrite Hq).
  assert (Hl : leisQ i1 = leisQ i2) by (unfold leisQ; now rewrite Hq).
  assert (Ho : otherQ i1 = otherQ i2) by (unfold otherQ; now rewrite Hq).
  assert (Haw : awakeWeighted i1 = awakeWeighted i2).
  { unfold awakeWeighted.
    now rewrite HWork, HCommute, HGym, HRel, HLeisure, Hoa, Hawake,
      Hw, Hc, Hg, Hr, Hl, Ho. }
  assert (Hsq : sleepQ i1 = sleepQ i2) by (unfold sleepQ; now rewrite Haw).
  assert (Hraw : rawLMS i1 = rawLMS i2).
  { unfold rawLMS.
    now rewrite HSleep, HWork, HCommute, HGym, HRel, HLeisure, Hoa,
      Hw, Hc, Hg, Hr, Hl, Ho, Hsq. }
  assert (Hnet : netRI i1 = netRI i2).
  { unfold netRI.
    now rewrite HWork, HCommute, HGym, HRel, HLeisure, HOther, Hoa. }
  assert (Hri : riAdjusted i1 = riAdjusted i2).
  { unfold riAdjusted. now rewrite Hraw, Hgm, Hnet. }
  assert (Hlmc : LMC i1 = LMC i2) by (unfold LMC; now rewrite Heli).
  assert (Hfin : finalLMI i1 = finalLMI i2).
  { unfold finalLMI. now rewrite Hri, Hlmc. }
  assert (Hws : workQ_s i1 = workQ_s i2).
  { unfold workQ_s. now rewrite Hlift, Hqs, Hw. }
  assert (Hcs : commuteQ_s i1 = commuteQ_s i2)
    by (unfold commuteQ_s; now rewrite Hqs, Hc).
  assert (Hgs : gymQ_s i1 = gymQ_s i2) by (unfold gymQ_s; now rewrite Hqs, Hg).
  assert (Hrs : relQ_s i1 = relQ_s i2) by (unfold relQ_s; now rewrite Hqs, Hr).
  assert (Hls : leisQ_s i1 = leisQ_s i2)
    by (unfold leisQ_s; now rewrite Hqs, Hl).
  assert (Hos : otherQ_s i1 = otherQ_s i2)
    by (unfold otherQ_s; now rewrite Hqs, Ho).
  assert (Haws : awakeWeighted_s i1 = awakeWeighted_s i2).
  { unfold awakeWeighted_s.
    now rewrite HWork, HCommute, HGym, HRel, HLeisure, Hoa, Hawake,
      Hws, Hcs, Hgs, Hrs, Hls, Hos. }
  assert (Hsqs : sleepQ_s i1 = sleepQ_s i2)
    by (unfold sleepQ_s; now rewrite Haws).
  assert (Hraws : rawLMS_s i1 = rawLMS_s i2).
  { unfold rawLMS_s.
    now rewrite HSleep, HWork, HCommute, HGym, HRel, HLeisure, Hoa,
      Hws, Hcs, Hgs, Hrs, Hls, Hos, Hsqs. }
  assert (Hris : riAdjusted_s i1 = riAdjusted_s i2).
  { unfold riAdjusted_s. now rewrite Hraws, Hgm, Hnet. }
  assert (Hfins : finalLMI_s i1 = finalLMI_s i2).
  { unfold finalLMI_s. now rewrite Hris, Hlmc. }
  assert (Hidx : idxs i1 = idxs i2).
  { unfold idxs, baseScores. now rewrite Hans. }
  assert (Hentry : forall x, entry i1 x = entry i2 x).
  { intros x. unfold entry. now rewrite Hans. }
  assert (HmapM : forall l, mapM (entry i1) l = mapM (entry i2) l).
  { induction l as [| x l IH]; [reflexivity |].
    cbn [mapM]. now rewrite Hentry, IH. }
  assert (Hdr : drains i1 = drains i2).
  { unfold drains. now rewrite Hidx, HmapM. }
  assert (Hli : lifts i1 = lifts i2).
  { unfold lifts. now rewrite Hidx, HmapM. }
  unfold values, scope.
  now rewrite Hcur, Hscn, Hsc, Hss, Hq, Hqs, Hdr, Hli, Hawake, Hoa,
    Hw, Hc, Hg, Hr, Hl, Ho, Haw, Hsq, Hraw, Hnet, Hri, Hlmc, Hfin,
    Hws, Hcs, Hgs, Hrs, Hls, Hos, Haws, Hsqs, Hraws, Hris, Hfins.
Qed.

(** The result of the call is determined by the computed values. *)
Lemma scoreLMI_of_values (i1 i2 : Input) :
  values i1 = values i2 -> scoreLMI i1 = scoreLMI i2.
Proof.
  intros H.
  pose proof (f_equal v_current H) as Hcur.
  pose proof (f_equal v_scenario H) as Hscn.
  pose proof (f_equal v_sectionCurrent H) as Hsc.
  pose proof (f_equal v_sectionScenario H) as Hss.
  pose proof (f_equal v_numbers H) as Hnum.
  pose proof (f_equal v_drains H) as Hdr.
  pose proof (f_equal v_lifts H) as Hli.
  cbn [values v_current v_scenario v_sectionCurrent v_sectionScenario
       v_numbers v_drains v_lifts] in *.
  unfold scoreLMI, shorthand.
  now rewrite Hcur, Hscn, Hsc, Hss, Hnum, Hdr, Hli.
Qed.

Lemma find_other_rows (tm : list TimeRow) (c : TimeCategory) :
  chores_or_growth c = false ->
  List.find (fun r => TimeCategory_eqb (category r) c) (other_rows tm)
  = List.find (fun r => TimeCategory_eqb (category r) c) tm.
Proof.
  intros Hc. induction tm as [| r tm IH]; [reflexivity |].
  cbn [other_rows filter List.find]. fold (other_rows tm).
  destruct (TimeCategory_eqb (category r) c) eqn:Heq.
  - assert (Hr : chores_or_growth (category r) = false).
    { apply TimeCategory_eqb_eq in Heq. now rewrite Heq. }
    rewrite Hr. cbn [negb List.find]. now rewrite Heq.
  - destruct (chores_or_growth (category r)); cbn [negb List.find].
    + exact IH.
    + now rewrite Heq.
Qed.

(** C3.  Two inputs that differ only in their Chores and Growth rows
    (whether they are there, their hours, their RI) compute the same
    values throughout, [awakeHours], [otherAwake], the qualities,
    [rawLMS] and [netRI] among them, and the call has the same result. *)
Theorem chores_growth_unused (i1 i2 : Input)
        (Hans : answers i1 = answers i2)
        (Heli : ELI i1 = ELI i2)
        (Hcfg : config i1 = config i2)
        (Hrows : other_rows (timeMap i1) = other_rows (timeMap i2)) :
  values i1 = values i2 /\ scoreLMI i1 = scoreLMI i2.
Proof.
  assert (Hv : values i1 = values i2).
  { apply values_ext; trivial.
    - unfold cfg. now rewrite Hcfg.
    - unfold config_ri_globalMultiplier. now rewrite Hcfg.
    - intros c Hc. unfold find.
      now rewrite <- (find_other_rows (timeMap i1) c Hc), Hrows,
        (find_other_rows (timeMap i2) c Hc).
    - assert (Hf : forall c, chores_or_growth c = false -> find i1 c = find i2 c).
      { intros c Hc. unfold find.
        now rewrite <- (find_other_rows (timeMap i1) c Hc), Hrows,
          (find_other_rows (timeMap i2) c Hc). }
      intros w. unfold crossLiftBlock, awakeHours, cfg, by_.
      cbn [By.Sleep By.Relationships By.Gym By.Leisure].
      now rewrite Hcfg, !Hf. }
  split; [exact Hv | now apply scoreLMI_of_values].
Qed.

Lemma chores_growth_unused_example :
  other_rows (timeMap plain_week) = other_rows (timeMap week_with_chores)
  /\ values plain_week = values week_with_chores
  /\ scoreLMI plain_week = scoreLMI week_with_chores.
Proof.
  assert (Hrows : other_rows (timeMap plain_week)
                  = other_rows (timeMap week_with_chores)) by reflexivity.
  split; [exact Hrows |].
  exact (@chores_growth_unused plain_week week_with_chores
           eq_refl eq_refl eq_refl Hrows).
Defined.

(** ** Cross-lift *)

Lemma crossLiftBlock_disabled (input : Input) (w : R) :
  enabled (crossLift (cfg input)) = false -> crossLiftBlock input w = w.
Proof.
  intros Hoff. unfold crossLiftBlock. now rewrite Hoff.
Qed.

Lemma find_with_crossLift (input : Input) (cl : option CrossLift) (c : TimeCategory) :
  find (with_crossLift input cl) c = find input c.
Proof. reflexivity. Qed.

Lemma values_crossLift_disabled (input : Input) (cl : option CrossLift) :
  enabled (crossLift (cfg input)) = false ->
  enabled (crossLift (cfg (with_crossLift input cl))) = false ->
  values input = values (with_crossLift input cl).
Proof.
  intros Hoff Hoff'. apply values_ext; try reflexivity.
  - unfold config_ri_globalMultiplier. cbn [with_crossLift config ri_opt].
    destruct (config input); reflexivity.
  - intros w. now rewrite !crossLiftBlock_disabled.
Qed.

(** C7.  When [crossLift.enabled] is false, whatever [alpha] is, the
    cross-lift block leaves Work quality as it is in the current and
    in the scenario run, and values and result are those computed
    under the default [crossLift] group (given explicitly or left
    out). *)
Theorem crossLift_disabled_is_noop (input : Input) (a : R)
        (Hoff : crossLift (cfg input) = {| enabled := false; alpha := a |}) :
  (forall w, crossLiftBlock input w = w)
  /\ workQ input = Q.Work (dimQ input)
  /\ workQ_s input = Q.Work (dimQ_s input)
  /\ values input = values (with_crossLift input (Some (crossLift DEFAULT_CONFIG)))
  /\ scoreLMI input
     = scoreLMI (with_crossLift input (Some (crossLift DEFAULT_CONFIG)))
  /\ values input = values (with_crossLift input None)
  /\ scoreLMI input = scoreLMI (with_crossLift input None).
Proof.
  assert (He : enabled (crossLift (cfg input)) = false) by now rewrite Hoff.
  assert (Hv1 : values input
                = values (with_crossLift input (Some (crossLift DEFAULT_CONFIG))))
    by now apply values_crossLift_disabled.
  assert (Hv2 : values input = values (with_crossLift input None))
    by now apply values_crossLift_disabled.
  assert (Hb : forall w, crossLiftBlock input w = w)
    by (intros w; now apply crossLiftBlock_disabled).
  assert (Hw : workQ input = Q.Work (dimQ input)) by apply Hb.
  assert (Hws : workQ_s input = Q.Work (dimQ_s input)) by apply Hb.
  pose proof (scoreLMI_of_values Hv1) as Hs1.
  pose proof (scoreLMI_of_values Hv2) as Hs2.
  repeat split; assumption.
Qed.

Lemma crossLift_disabled_is_noop_example :
  crossLift (cfg lift_off) = {| enabled := false; alpha := 7 |}
  /\ values lift_off
     = values (with_crossLift lift_off (Some (crossLift DEFAULT_CONFIG)))
  /\ scoreLMI lift_off
     = scoreLMI (with_crossLift lift_off (Some (crossLift DEFAULT_CONFIG))).
Proof.
  assert (Hoff : crossLift (cfg lift_off) = {| enabled := false; alpha := 7 |})
    by reflexivity.
  destruct (@crossLift_disabled_is_noop lift_off 7 Hoff)
    as (_ & _ & _ & Hv & Hs & _).
  split; [exact Hoff |]. split; [exact Hv | exact Hs].
Defined.

(** ** The scenario run when no scenario score is given *)

Lemma numbers_all_absent (l : list (option num)) :
  Forall (fun n => n = None) l -> numbers l = [].
Proof.
  induction 1 as [| n l Hn _ IH]; [reflexivity |].
  subst n. exact IH.
Qed.

Lemma avg_all_absent (l : list (option num)) :
  Forall (fun n => n = None) l -> avg l = None.
Proof.
  intros Hl. unfold avg. now rewrite numbers_all_absent.
Qed.

Lemma scenario_all_absent (input : Input) :
  Forall (fun a => scenarioScore a = None) (answers input) ->
  Forall (fun n => n = None) (scenario input).
Proof.
  intros Hall. unfold scenario. apply Forall_map.
  eapply Forall_impl; [| exact Hall].
  intros a Ha. cbn beta. now rewrite Ha.
Qed.

Lemma at_index_all_absent (l : list (option num)) (i : nat) :
  Forall (fun n => n = None) l -> at_index l i = None.
Proof.
  intros Hl. unfold at_index.
  destruct (nth_in_or_default i l None) as [Hin | Hd]; [| exact Hd].
  rewrite Forall_forall in Hl. now apply Hl.
Qed.

Lemma avg_section_all_absent (l : list (option num)) (dim : list nat) :
  Forall (fun n => n = None) l ->
  avg (map (fun i => at_index l i) dim) = None.
Proof.
  intros Hl. apply avg_all_absent, Forall_map, Forall_forall.
  intros i _. now apply at_index_all_absent.
Qed.

(** What the scenario run works with when every [scenarioScore] is
    absent: all six qualities are the overall current average. *)
Lemma dimQ_s_all_absent (input : Input) :
  Forall (fun a => scenarioScore a = None) (answers input) ->
  dimQ_s input =
  {| Q.Work := baseAvgAll input ?? 0; Q.Commute := baseAvgAll input ?? 0;
     Q.Gym := baseAvgAll input ?? 0; Q.Relationships := baseAvgAll input ?? 0;
     Q.Leisure := baseAvgAll input ?? 0; Q.Other := baseAvgAll input ?? 0 |}.
Proof.
  intros Hall. pose proof (scenario_all_absent input Hall) as Hsc.
  unfold dimQ_s, sectionScenario, baseAvgAll_scn, qualityFromSections.
  cbn [Fulfillment Connection Autonomy Vitality Peace].
  rewrite !avg_section_all_absent, avg_all_absent by exact Hsc.
  reflexivity.
Qed.

Lemma current_autonomy_high :
  current autonomy_high =
  repeat (Some (Fin (curve 1.936428228 8.75 1))) 10
  ++ repeat (Some (Fin 8.75)) 5
  ++ repeat (Some (Fin (curve 1.936428228 8.75 1))) 9.
Proof.
  unfold current, cfg.
  cbn [config autonomy_high answers nullish calibration DEFAULT_CONFIG k max
       repeat map app answer_of score].
  rewrite calibrate_default_10, calibrate_default_1. reflexivity.
Qed.

Lemma workQ_autonomy_high : workQ autonomy_high = 8.75.
Proof.
  unfold workQ. rewrite crossLiftBlock_default by reflexivity.
  unfold dimQ, sectionCurrent, qualityFromSections.
  rewrite current_autonomy_high. eval_lists.
  cbn [Q.Work Autonomy coalesce nullish INR]. lra.
Qed.

Lemma baseAvgAll_autonomy_high :
  baseAvgAll autonomy_high
  = Some ((19 * curve 1.936428228 8.75 1 + 5 * 8.75) / 24).
Proof.
  unfold baseAvgAll. rewrite current_autonomy_high. eval_lists.
  f_equal. cbn [INR]. lra.
Qed.

Lemma scenario_absent_autonomy_high :
  Forall (fun a => scenarioScore a = None) (answers autonomy_high).
Proof.
  cbn [autonomy_high answers repeat app]. repeat constructor.
Qed.

Lemma workQ_s_autonomy_high :
  workQ_s autonomy_high = (19 * curve 1.936428228 8.75 1 + 5 * 8.75) / 24.
Proof.
  unfold workQ_s. rewrite crossLiftBlock_default by reflexivity.
  rewrite (dimQ_s_all_absent autonomy_high scenario_absent_autonomy_high).
  rewrite baseAvgAll_autonomy_high. reflexivity.
Qed.

Lemma otherQ_autonomy_high :
  otherQ autonomy_high = (19 * curve 1.936428228 8.75 1 + 5 * 8.75) / 24.
Proof.
  unfold otherQ, dimQ, qualityFromSections. cbn [Q.Other].
  rewrite baseAvgAll_autonomy_high. reflexivity.
Qed.

Lemma otherQ_s_autonomy_high :
  otherQ_s autonomy_high = (19 * curve 1.936428228 8.75 1 + 5 * 8.75) / 24.
Proof.
  unfold otherQ_s.
  rewrite (dimQ_s_all_absent autonomy_high scenario_absent_autonomy_high).
  rewrite baseAvgAll_autonomy_high. reflexivity.
Qed.

(** The hours when the time map is a single 40-hour Work row. *)
Lemma by_work_40 (input : Input) :
  timeMap input = [ {| category := Work; hours := 40; ri := 5 |} ] ->
  By.Sleep (by_ input) = {| category := Sleep; hours := 49; ri := 5 |}
  /\ By.Work (by_ input) = {| category := Work; hours := 40; ri := 5 |}
  /\ hours (By.Commute (by_ input)) = 0
  /\ hours (By.Gym (by_ input)) = 0
  /\ hours (By.Relationships (by_ input)) = 0
  /\ hours (By.Leisure (by_ input)) = 0
  /\ awakeHours input = 119
  /\ otherAwake input = 79.
Proof.
  intros Htm.
  assert (Hby : forall c, find input c =
            match c with
            | Work => {| category := Work; hours := 40; ri := 5 |}
            | Sleep => {| category := Sleep; hours := 49; ri := 5 |}
            | _ => {| category := c; hours := 0; ri := 5 |}
            end).
  { intros c. unfold find. rewrite Htm. destruct c; reflexivity. }
  assert (Ha : awakeHours input = 119).
  { unfold awakeHours, by_. cbn [By.Sleep]. rewrite Hby. cbn [hours].
    eval_guards. }
  unfold otherAwake. rewrite Ha. unfold by_.
  cbn [By.Sleep By.Work By.Commute By.Gym By.Relationships By.Leisure].
  rewrite !Hby. cbn [hours].
  repeat split; trivial. eval_guards.
Qed.

Lemma rawLMS_work_40 (input : Input) :
  timeMap input = [ {| category := Work; hours := 40; ri := 5 |} ] ->
  rawLMS input
  = (40 * workQ input + 79 * otherQ input
     + 49 * ((10 + (40 * workQ input + 79 * otherQ input) / 119) / 2))
    / 168.
Proof.
  intros Htm.
  destruct (by_work_40 input Htm) as (Hs & Hw & Hc & Hg & Hr & Hl & Ha & Ho).
  unfold rawLMS, sleepQ, awakeWeighted.
  rewrite Hs, Hw, Hc, Hg, Hr, Hl, Ha, Ho. cbn [hours].
  unfold or_else, truthy. destruct (Req_dec_T 119 0); [lra |]. field.
Qed.

Lemma rawLMS_s_work_40 (input : Input) :
  timeMap input = [ {| category := Work; hours := 40; ri := 5 |} ] ->
  rawLMS_s input
  = (40 * workQ_s input + 79 * otherQ_s input
     + 49 * ((10 + (40 * workQ_s input + 79 * otherQ_s input) / 119) / 2))
    / 168.
Proof.
  intros Htm.
  destruct (by_work_40 input Htm) as (Hs & Hw & Hc & Hg & Hr & Hl & Ha & Ho).
  unfold rawLMS_s, sleepQ_s, awakeWeighted_s.
  rewrite Hs, Hw, Hc, Hg, Hr, Hl, Ha, Ho. cbn [hours].
  unfold or_else, truthy. destruct (Req_dec_T 119 0); [lra |]. field.
Qed.

Lemma netRI_work_40 (input : Input) :
  timeMap input = [ {| category := Work; hours := 40; ri := 5 |} ] ->
  netRI input = 0.
Proof.
  intros Htm. unfold netRI, by_.
  cbn [By.Work By.Commute By.Gym By.Relationships By.Leisure By.Other].
  rewrite !find_ri_neutral, riToInternal_5; [lra | ..];
    rewrite Htm; intros r [<- | []]; reflexivity.
Qed.

(** C1 fails on the code.  In [autonomy_high] no answer has a scenario
    score, yet the scenario run does not take over the current run's
    qualities: its Work quality is the overall average of the current
    answers, below the current run's Work quality (the Autonomy
    average, 8.75), and the scenario index ends below the current one.
    The [?? workQ] that should fall back to the current run is never
    reached, because [qualityFromSections] has already replaced the
    missing average by the overall average. *)
Theorem scenario_absent_does_not_collapse :
  Forall (fun a => scenarioScore a = None) (answers autonomy_high)
  /\ List.length (answers autonomy_high) = 24%nat
  /\ workQ autonomy_high = 8.75
  /\ workQ_s autonomy_high = baseAvgAll autonomy_high ?? 0
  /\ workQ_s autonomy_high < workQ autonomy_high
  /\ finalLMI_s autonomy_high < finalLMI autonomy_high.
Proof.
  pose proof curve_default_1 as [Hc0 Hc1].
  assert (Hlt : workQ_s autonomy_high < workQ autonomy_high).
  { rewrite workQ_s_autonomy_high, workQ_autonomy_high. lra. }
  assert (Hbase : workQ_s autonomy_high = baseAvgAll autonomy_high ?? 0).
  { rewrite workQ_s_autonomy_high, baseAvgAll_autonomy_high. reflexivity. }
  assert (Hfin : finalLMI_s autonomy_high < finalLMI autonomy_high).
  { unfold finalLMI_s, finalLMI, riAdjusted_s, riAdjusted.
    rewrite rawLMS_s_work_40, rawLMS_work_40 by reflexivity.
    rewrite otherQ_s_autonomy_high, otherQ_autonomy_high.
    rewrite workQ_s_autonomy_high, workQ_autonomy_high.
    rewrite netRI_work_40, LMC_ELI_1 by reflexivity.
    replace (config_ri_globalMultiplier autonomy_high) with (@None R)
      by reflexivity.
    cbn [nullish].
    revert Hc0 Hc1. generalize (curve 1.936428228 8.75 1). intros c Hc0 Hc1.
    lra. }
  split; [exact scenario_absent_autonomy_high |].
  split; [reflexivity |].
  split; [exact workQ_autonomy_high |].
  split; [exact Hbase |].
  split; [exact Hlt | exact Hfin].
Qed.

(** ** Stable sorting *)

Section SortFacts.
Variable cmp : Idx.t -> Idx.t -> R.
Variable key : Idx.t -> R.
Hypothesis cmp_key : forall a b, cmp a b = key a - key b.

Lemma insert_perm (x : Idx.t) (l : list Idx.t) :
  Permutation (insert cmp x l) (x :: l).
Proof.
  induction l as [| y l IH]; cbn [insert]; [reflexivity |].
  destruct (Rle_dec (cmp x y) 0); [reflexivity |].
  rewrite IH. apply perm_swap.
Qed.

Lemma sort_perm (l : list Idx.t) : Permutation (sort cmp l) l.
Proof.
  induction l as [| x l IH]; cbn [sort fold_right]; [reflexivity |].
  fold (sort cmp l). rewrite insert_perm. now constructor.
Qed.

Lemma before_trans (a b c : Idx.t) :
  before key a b -> before key b c -> before key a c.
Proof.
  unfold before. intros [Hab | [Hab Hiab]] [Hbc | [Hbc Hibc]].
  - left. lra.
  - left. lra.
  - left. lra.
  - right. split; [lra | lia].
Qed.

Lemma insert_sorted (x : Idx.t) (l : list Idx.t) :
  StronglySorted (before key) l ->
  Forall (fun y => (Idx.i x < Idx.i y)%nat) l ->
  StronglySorted (before key) (insert cmp x l).
Proof.
  induction 1 as [| y l Hsorted IH Hy]; intros Hpos; cbn [insert].
  - repeat constructor.
  - inversion Hpos as [| ? ? Hxy Hrest]; subst.
    destruct (Rle_dec (cmp x y) 0) as [Hle | Hgt].
    + assert (Hb : before key x y).
      { rewrite cmp_key in Hle. unfold before.
        destruct (Rle_lt_or_eq_dec _ _ Hle) as [Hlt | Heq].
        - left. lra.
        - right. split; [lra | exact Hxy]. }
      constructor; [now constructor |].
      constructor; [exact Hb |].
      eapply Forall_impl; [| exact Hy].
      intros z Hz. now apply before_trans with y.
    + constructor; [now apply IH |].
      rewrite (insert_perm x l). constructor; [| exact Hy].
      rewrite cmp_key in Hgt. left. lra.
Qed.

Lemma sort_sorted (l : list Idx.t) :
  StronglySorted (fun a b => (Idx.i a < Idx.i b)%nat) l ->
  StronglySorted (before key) (sort cmp l).
Proof.
  induction 1 as [| x l _ IH Hx]; cbn [sort fold_right].
  - constructor.
  - fold (sort cmp l). apply insert_sorted; [exact IH |].
    now rewrite (sort_perm l).
Qed.
End SortFacts.

Lemma sort_already_sorted {A} (cmp : A -> A -> R) (l : list A) :
  StronglySorted (fun a b => cmp a b <= 0) l -> sort cmp l = l.
Proof.
  induction 1 as [| x l _ IH Hx]; [reflexivity |].
  cbn [sort fold_right]. fold (sort cmp l). rewrite IH.
  destruct l as [| y l]; [reflexivity |].
  cbn [insert]. inversion Hx as [| ? ? Hxy _]; subst.
  destruct (Rle_dec (cmp x y) 0); [reflexivity | contradiction].
Qed.

Lemma In_firstn {A} (n : nat) (l : list A) (x : A) :
  In x (firstn n l) -> In x l.
Proof.
  intros Hin. rewrite <- (firstn_skipn n l). apply in_or_app. now left.
Qed.

Lemma firstn_sorted {A} (lt : A -> A -> Prop) (n : nat) (l : list A) :
  StronglySorted lt l -> StronglySorted lt (firstn n l).
Proof.
  intros Hs. revert n.
  induction Hs as [| x l Hs IH Hx]; intros [| n]; cbn [firstn];
    try constructor.
  - apply IH.
  - rewrite Forall_forall in *. intros y Hy. apply Hx.
    now apply In_firstn in Hy.
Qed.

Lemma sorted_app_before {A} (lt : A -> A -> Prop) (l1 l2 : list A) :
  StronglySorted lt (l1 ++ l2) ->
  forall a b, In a l1 -> In b l2 -> lt a b.
Proof.
  induction l1 as [| x l1 IH]; cbn [app]; intros Hs a b Ha Hb.
  - destruct Ha.
  - inversion Hs as [| ? ? Hs' Hx]; subst.
    destruct Ha as [<- | Ha].
    + rewrite Forall_forall in Hx. apply Hx, in_or_app. now right.
    + now apply IH.
Qed.

Lemma sorted_map {A B} (ltA : A -> A -> Prop) (ltB : B -> B -> Prop)
      (f : A -> B) (l : list A) :
  (forall a b, ltA a b -> ltB (f a) (f b)) ->
  StronglySorted ltA l -> StronglySorted ltB (map f l).
Proof.
  intros Hf. induction 1 as [| x l _ IH Hx]; cbn [map]; constructor.
  - exact IH.
  - apply Forall_map. eapply Forall_impl; [| exact Hx].
    intros b Hb. now apply Hf.
Qed.

(** ** The items that are ranked *)

Lemma not_NaN_positions {A} (f : A -> num) (l : list A) (from : nat) :
  StronglySorted (fun a b => (Idx.i a < Idx.i b)%nat)
                 (not_NaN (indexed from (map f l)))
  /\ Forall (fun x => (from <= Idx.i x)%nat)
            (not_NaN (indexed from (map f l))).
Proof.
  revert from. induction l as [| a l IH]; intros from; cbn [map indexed not_NaN].
  - split; constructor.
  - destruct (IH (S from)) as [Hs Hf].
    assert (Hf' : Forall (fun x => (from <= Idx.i x)%nat)
                         (not_NaN (indexed (S from) (map f l)))).
    { eapply Forall_impl; [| exact Hf]. cbn beta. intros x Hx. lia. }
    destruct (f a) as [v |]; [| now split].
    split.
    + constructor; [exact Hs |].
      eapply Forall_impl; [| exact Hf]. cbn [Idx.i]. intros x Hx. lia.
    + constructor; [cbn [Idx.i]; lia | exact Hf'].
Qed.

Lemma idxs_positions (input : Input) :
  StronglySorted (fun a b => (Idx.i a < Idx.i b)%nat) (idxs input).
Proof. unfold idxs, baseScores. apply not_NaN_positions. Qed.

Lemma not_NaN_scores (l : list Answer) (from : nat) (x : Idx.t) :
  In x (not_NaN (indexed from
         (map (fun a => match score a with Some v => Fin v | None => NaN end) l)))
  <-> exists a, (from <= Idx.i x)%nat
                /\ nth_error l (Idx.i x - from) = Some a
                /\ score a = Some (Idx.s x).
Proof.
  revert from. induction l as [| a l IH]; intros from; cbn [map indexed not_NaN].
  - split; [intros [] |]. intros (a & _ & Hn & _).
    destruct (Idx.i x - from)%nat; discriminate Hn.
  - assert (Hrest :
      In x (not_NaN (indexed (S from)
             (map (fun a => match score a with Some v => Fin v | None => NaN end) l)))
      <-> exists b, (from < Idx.i x)%nat
                    /\ nth_error (a :: l) (Idx.i x - from) = Some b
                    /\ score b = Some (Idx.s x)).
    { rewrite IH. split; intros (b & Hle & Hn & Hs); exists b.
      - split; [lia |]. split; [| exact Hs].
        replace (Idx.i x - from)%nat with (S (Idx.i x - S from)) by lia.
        exact Hn.
      - split; [lia |]. split; [| exact Hs].
        replace (Idx.i x - from)%nat with (S (Idx.i x - S from)) in Hn by lia.
        exact Hn. }
    destruct (score a) as [v |] eqn:Hsc.
    + cbn [In]. rewrite Hrest. split.
      * intros [<- | (b & Hlt & Hn & Hs)].
        -- exists a. cbn [Idx.i Idx.s]. rewrite Nat.sub_diag. now repeat split.
        -- exists b. split; [lia | now split].
      * intros (b & Hle & Hn & Hs).
        destruct (Nat.eq_dec (Idx.i x) from) as [Heq | Hne].
        -- left. rewrite Heq, Nat.sub_diag in Hn. cbn [nth_error] in Hn.
           injection Hn as <-. rewrite Hsc in Hs. injection Hs as Hv.
           destruct x as [xi xs]. cbn [Idx.i Idx.s] in *. now subst.
        -- right. exists b. split; [lia | now split].
    + rewrite Hrest. split.
      * intros (b & Hlt & Hn & Hs). exists b. split; [lia | now split].
      * intros (b & Hle & Hn & Hs).
        destruct (Nat.eq_dec (Idx.i x) from) as [Heq | Hne].
        -- rewrite Heq, Nat.sub_diag in Hn. cbn [nth_error] in Hn.
           injection Hn as <-. congruence.
        -- exists b. split; [lia | now split].
Qed.

Lemma idxs_answered (input : Input) (x : Idx.t) :
  In x (idxs input)
  <-> exists a, nth_error (answers input) (Idx.i x) = Some a
                /\ score a = Some (Idx.s x).
Proof.
  unfold idxs, baseScores. rewrite not_NaN_scores.
  rewrite Nat.sub_0_r. split.
  - intros (a & _ & Hn & Hs). now exists a.
  - intros (a & Hn & Hs). exists a. split; [lia | now split].
Qed.

Lemma not_NaN_count (l : list Answer) (from : nat) :
  List.length (not_NaN (indexed from
         (map (fun a => match score a with Some v => Fin v | None => NaN end) l)))
  = List.length (filter (fun a => match score a with
                                  | Some _ => true | None => false end) l).
Proof.
  revert from. induction l as [| a l IH]; intros from; [reflexivity |].
  cbn [map indexed not_NaN filter].
  destruct (score a); cbn [List.length]; now rewrite IH.
Qed.

Lemma idxs_count (input : Input) :
  List.length (idxs input) = answered_count input.
Proof. unfold idxs, baseScores, answered_count. apply not_NaN_count. Qed.

(** Reading the note never throws on an item of [idxs]. *)
Lemma mapM_entry (input : Input) (l : list Idx.t) :
  (forall x, In x l -> In x (idxs input)) ->
  mapM (entry input) l = Ok (map (entry_of input) l).
Proof.
  induction l as [| x l IH]; intros Hin; [reflexivity |].
  cbn [mapM map]. unfold bind.
  assert (Hx : In x (idxs input)) by (apply Hin; now left).
  apply idxs_answered in Hx as (a & Hn & _).
  unfold entry at 1. unfold entry_of at 1. rewrite Hn.
  rewrite IH; [reflexivity |].
  intros y Hy. apply Hin. now right.
Qed.

Lemma ranking_returns (input : Input) (cmp : Idx.t -> Idx.t -> R) :
  mapM (entry input) (firstn 3 (sort cmp (idxs input)))
  = Ok (map (entry_of input) (firstn 3 (sort cmp (idxs input)))).
Proof.
  apply mapM_entry. intros x Hx. apply In_firstn in Hx.
  revert Hx. apply Permutation_in, sort_perm.
Qed.

Lemma entry_of_answered (input : Input) (i : nat) (v : R) (n : option string) :
  answered input i v n ->
  entry_of input {| Idx.i := i; Idx.s := v |}
  = {| Top.index := i; Top.score := v; Top.note := n |}.
Proof.
  intros (a & Hn & _ & Hnote). unfold entry_of. cbn [Idx.i Idx.s].
  now rewrite Hn, Hnote.
Qed.

(** What a ranking is, for either comparator: [cmp] orders by [key], and
    [ltT] is the order that shows on the entries. *)
Lemma ranking_spec (input : Input) (cmp : Idx.t -> Idx.t -> R)
      (key : Idx.t -> R) (ltT : Top.t -> Top.t -> Prop) :
  (forall a b, cmp a b = key a - key b) ->
  (forall a b, before key a b -> ltT (entry_of input a) (entry_of input b)) ->
  exists d,
    mapM (entry input) (firstn 3 (sort cmp (idxs input))) = Ok d
    /\ List.length d = Nat.min 3 (answered_count input)
    /\ (forall e, In e d ->
          answered input (Top.index e) (Top.score e) (Top.note e))
    /\ StronglySorted ltT d
    /\ (forall i v n, answered input i v n ->
          (exists e, In e d /\ Top.index e = i)
          \/ (forall e, In e d ->
                ltT e {| Top.index := i; Top.score := v; Top.note := n |})).
Proof.
  intros Hcmp Hlt.
  pose proof (sort_perm cmp (idxs input)) as Hperm.
  pose proof (sort_sorted cmp key Hcmp (idxs_positions input)) as Hsorted.
  exists (map (entry_of input) (firstn 3 (sort cmp (idxs input)))).
  split; [apply ranking_returns |].
  split.
  { rewrite length_map, length_firstn, (Permutation_length Hperm).
    now rewrite idxs_count. }
  split.
  { intros e He. apply in_map_iff in He as (x & <- & Hx).
    apply In_firstn in Hx. apply (Permutation_in _ Hperm) in Hx.
    apply idxs_answered in Hx as (a & Hn & Hs).
    exists a. unfold entry_of. cbn [Top.index Top.score Top.note].
    rewrite Hn. now repeat split. }
  split.
  { apply sorted_map with (ltA := before key); [exact Hlt |].
    now apply firstn_sorted. }
  intros i v n Hans.
  assert (Hx : In {| Idx.i := i; Idx.s := v |} (sort cmp (idxs input))).
  { apply (Permutation_in _ (Permutation_sym Hperm)), idxs_answered.
    destruct Hans as (a & Hn & Hs & _). now exists a. }
  rewrite <- (firstn_skipn 3 (sort cmp (idxs input))) in Hx, Hsorted.
  apply in_app_or in Hx as [Hfirst | Hrest].
  - left. exists (entry_of input {| Idx.i := i; Idx.s := v |}).
    split; [now apply in_map | reflexivity].
  - right. intros e He. apply in_map_iff in He as (y & <- & Hy).
    rewrite <- (entry_of_answered Hans). apply Hlt.
    eapply sorted_app_before; [exact Hsorted | exact Hy | exact Hrest].
Qed.

(** ** The example with one low answer *)

Lemma current_one_low :
  current one_low =
  Some (Fin (curve 1.936428228 8.75 1)) :: repeat (Some (Fin 8.75)) 23.
Proof.
  unfold current, cfg.
  cbn [config one_low answers nullish calibration DEFAULT_CONFIG k max
       repeat map answer_of score].
  rewrite calibrate_default_10, calibrate_default_1. reflexivity.
Qed.

Lemma sectionCurrent_one_low :
  sectionCurrent one_low =
  {| Fulfillment := Some ((curve 1.936428228 8.75 1 + 4 * 8.75) / 5);
     Connection := Some 8.75; Autonomy := Some 8.75;
     Vitality := Some 8.75; Peace := Some 8.75 |}.
Proof.
  unfold sectionCurrent. rewrite current_one_low. eval_lists.
  generalize (curve 1.936428228 8.75 1). intros c.
  f_equal; f_equal; cbn [INR]; lra.
Qed.

Lemma idxs_one_low :
  idxs one_low =
  {| Idx.i := 0; Idx.s := 1 |}
  :: map (fun i => {| Idx.i := i; Idx.s := 10 |}) (seq 1 23).
Proof. reflexivity. Qed.

Lemma sorted_one_low :
  sort (fun a b => Idx.s a - Idx.s b) (idxs one_low) = idxs one_low.
Proof.
  apply sort_already_sorted. rewrite idxs_one_low. cbn [map seq].
  repeat (constructor; [| repeat (constructor; [cbn [Idx.s]; lra |]);
                          constructor]).
  constructor.
Qed.

Lemma drains_one_low :
  drains one_low =
  Ok [ {| Top.index := 0; Top.score := 1; Top.note := None |};
       {| Top.index := 1; Top.score := 10; Top.note := None |};
       {| Top.index := 2; Top.score := 10; Top.note := None |} ].
Proof.
  unfold drains. rewrite ranking_returns, sorted_one_low, idxs_one_low.
  reflexivity.
Qed.

(** C9.  [topDrainers] is built from [drains] and [topUplifters] from
    [lifts].  Each holds at most 3 entries (3, or all answered items
    when there are fewer); every entry is an answered item with its
    raw score and its note; [drains] is in ascending and [lifts] in
    descending order of score, equal scores in the order of the
    answers; every answered item left out comes after all entries in
    that order.  For 24 answers scored 10 except answer 0 scored 1,
    [drains] starts with index 0, score 1; the Fulfillment average is
    below 8.75 and the other four averages are 8.75. *)
Theorem ranking_contract :
  (forall input, exists d,
      drains input = Ok d
      /\ List.length d = Nat.min 3 (answered_count input)
      /\ (forall e, In e d ->
            answered input (Top.index e) (Top.score e) (Top.note e))
      /\ StronglySorted drains_before d
      /\ (forall i v n, answered input i v n ->
            (exists e, In e d /\ Top.index e = i)
            \/ (forall e, In e d ->
                  drains_before e
                    {| Top.index := i; Top.score := v; Top.note := n |})))
  /\ (forall input, exists u,
      lifts input = Ok u
      /\ List.length u = Nat.min 3 (answered_count input)
      /\ (forall e, In e u ->
            answered input (Top.index e) (Top.score e) (Top.note e))
      /\ StronglySorted lifts_before u
      /\ (forall i v n, answered input i v n ->
            (exists e, In e u /\ Top.index e = i)
            \/ (forall e, In e u ->
                  lifts_before e
                    {| Top.index := i; Top.score := v; Top.note := n |})))
  /\ drains one_low =
     Ok [ {| Top.index := 0; Top.score := 1; Top.note := None |};
          {| Top.index := 1; Top.score := 10; Top.note := None |};
          {| Top.index := 2; Top.score := 10; Top.note := None |} ]
  /\ (exists f, Fulfillment (sectionCurrent one_low) = Some f /\ f < 8.75)
  /\ Connection (sectionCurrent one_low) = Some 8.75
  /\ Autonomy (sectionCurrent one_low) = Some 8.75
  /\ Vitality (sectionCurrent one_low) = Some 8.75
  /\ Peace (sectionCurrent one_low) = Some 8.75.
Proof.
  split.
  { intros input. unfold drains.
    apply ranking_spec with (key := fun x => Idx.s x); [reflexivity |].
    intros a b Hab. exact Hab. }
  split.
  { intros input. unfold lifts.
    apply ranking_spec with (key := fun x => - Idx.s x).
    - intros a b. lra.
    - intros a b [Hlt | [Heq Hi]]; unfold lifts_before;
        cbn [entry_of Top.score Top.index]; [left | right; split]; trivial; lra. }
  split; [exact drains_one_low |].
  rewrite sectionCurrent_one_low. cbn [Fulfillment Connection Autonomy Vitality Peace].
  split; [| now repeat split].
  eexists. split; [reflexivity |].
  pose proof curve_default_1 as [_ Hc]. lra.
Qed.

(** ** The call as a whole *)

Lemma ranking_never_throws (input : Input) :
  exists d u, drains input = Ok d /\ lifts input = Ok u.
Proof.
  unfold drains, lifts. rewrite !ranking_returns. eauto.
Qed.

Lemma or_else_1_nonzero (x : R) : or_else x 1 <> 0.
Proof.
  unfold or_else, truthy. destruct (Req_dec_T x 0); lra.
Qed.

Lemma awakeHours_full_sleep (input : Input) :
  168 <= hours (find input Sleep) ->
  awakeHours input = 0 /\ or_else (awakeHours input) 1 = 1.
Proof.
  intros Hs.
  assert (Ha : awakeHours input = 0).
  { unfold awakeHours, by_. cbn [By.Sleep]. eval_guards. }
  split; [exact Ha |]. rewrite Ha. unfold or_else, truthy.
  destruct (Req_dec_T 0 0); [reflexivity | contradiction].
Qed.

Lemma lookup_rawLMS (input : Input) :
  shorthand input "rawLMS" = Ok (rawLMS input).
Proof. reflexivity. Qed.

Lemma lookup_riAdjusted (input : Input) :
  shorthand input "riAdjusted" = Ok (riAdjusted input).
Proof. reflexivity. Qed.

Lemma lookup_finalLMI (input : Input) :
  shorthand input "finalLMI" = Ok (finalLMI input).
Proof. reflexivity. Qed.

Lemma lookup_rawLMS_scn (input : Input) :
  shorthand input "rawLMS_scn" = Throw (ReferenceError "rawLMS_scn").
Proof. reflexivity. Qed.

(** C10 fails on the code.  The body itself never fails: both rankings
    are built without a throw, the divisor of the awake-weighted
    average is never 0 (it is 1 when sleep fills the week), and with no
    section average and no overall average every quality is 0.  But
    the object that [return] builds names [rawLMS_scn],
    [riAdjusted_scn] and [finalLMI_scn] in shorthand, and the body binds
    [rawLMS_s], [riAdjusted_s] and [finalLMI_s]: on every input the call
    ends in a [ReferenceError] and no [Output] is returned. *)
Theorem scoreLMI_never_returns (input : Input) :
  (exists d u, drains input = Ok d /\ lifts input = Ok u)
  /\ or_else (awakeHours input) 1 <> 0
  /\ (168 <= hours (find input Sleep) -> or_else (awakeHours input) 1 = 1)
  /\ qualityFromSections
       {| Fulfillment := None; Connection := None; Autonomy := None;
          Vitality := None; Peace := None |} None
     = {| Q.Work := 0; Q.Commute := 0; Q.Gym := 0;
          Q.Relationships := 0; Q.Leisure := 0; Q.Other := 0 |}
  /\ scoreLMI input = Throw (ReferenceError "rawLMS_scn").
Proof.
  split; [apply ranking_never_throws |].
  split; [apply or_else_1_nonzero |].
  split; [intros Hs; now apply awakeHours_full_sleep |].
  split; [reflexivity |].
  destruct (ranking_never_throws input) as (d & u & Hd & Hu).
  unfold scoreLMI. rewrite Hd, Hu. cbn [bind].
  rewrite lookup_rawLMS, lookup_riAdjusted, lookup_finalLMI. cbn [bind].
  now rewrite lookup_rawLMS_scn.
Qed.

Lemma scoreLMI_never_returns_example :
  168 <= hours (find oversleep Sleep)
  /\ or_else (awakeHours oversleep) 1 = 1
  /\ scoreLMI oversleep = Throw (ReferenceError "rawLMS_scn").
Proof.
  assert (Hs : 168 <= hours (find oversleep Sleep)) by (simpl; lra).
  destruct (scoreLMI_never_returns oversleep) as (_ & _ & Hone & _ & Hthrow).
  split; [exact Hs |]. split; [exact (Hone Hs) | exact Hthrow].
Defined.

(** * Further properties of the code *)

(** ** [riToInternal] *)

Lemma riToInternal_value (r : R) :
  (r < 5 -> riToInternal (Some r) = (r - 5) * 0.075)
  /\ (5 <= r -> riToInternal (Some r) = (r - 5) * 0.06).
Proof.
  unfold riToInternal. split; intros Hr.
  - destruct (Rlt_dec r 5); [reflexivity | lra].
  - destruct (Rlt_dec r 5); [lra |].
    destruct (Req_dec_T r 5); [subst; lra | reflexivity].
Qed.

(** X1.  The internal scale of a relative impact: an absent RI counts as
    0; RI 1 gives -0.30 and RI 10 gives +0.30; the sign follows the
    side of 5 the RI is on; the translation never decreases when the RI
    grows; and an RI in [[1,10]] lands in [[-0.30, 0.30]]. *)
Theorem riToInternal_scale :
  riToInternal None = 0
  /\ riToInternal (Some 1) = - 0.30
  /\ riToInternal (Some 10) = 0.30
  /\ (forall r, r < 5 -> riToInternal (Some r) < 0)
  /\ (forall r, 5 < r -> 0 < riToInternal (Some r))
  /\ (forall r1 r2, r1 <= r2 ->
        riToInternal (Some r1) <= riToInternal (Some r2))
  /\ (forall r, 1 <= r <= 10 ->
        - 0.30 <= riToInternal (Some r) <= 0.30).
Proof.
  split; [reflexivity |].
  split; [apply riToInternal_1 |].
  split; [apply riToInternal_10 |].
  split.
  { intros r Hr. destruct (riToInternal_value r) as [Hlo _].
    rewrite Hlo by exact Hr. lra. }
  split.
  { intros r Hr. destruct (riToInternal_value r) as [_ Hhi].
    rewrite Hhi by lra. lra. }
  split.
  { intros r1 r2 Hle.
    destruct (riToInternal_value r1) as [Hlo1 Hhi1].
    destruct (riToInternal_value r2) as [Hlo2 Hhi2].
    destruct (Rlt_dec r1 5); destruct (Rlt_dec r2 5).
    - rewrite Hlo1, Hlo2 by assumption. lra.
    - rewrite Hlo1, Hhi2 by lra. lra.
    - lra.
    - rewrite Hhi1, Hhi2 by lra. lra. }
  intros r [Hlo Hhi].
  destruct (riToInternal_value r) as [Hv1 Hv2].
  destruct (Rlt_dec r 5).
  - rewrite Hv1 by assumption. lra.
  - rewrite Hv2 by lra. lra.
Qed.

Lemma riToInternal_bounds (r : R) :
  1 <= r <= 10 -> - 0.30 <= riToInternal (Some r) <= 0.30.
Proof.
  intros [Hlo Hhi].
  destruct (riToInternal_value r) as [Hv1 Hv2].
  destruct (Rlt_dec r 5).
  - rewrite Hv1 by assumption. lra.
  - rewrite Hv2 by lra. lra.
Qed.

(** ** [calibrate] at any steepness *)

Lemma den_nonzero (k : R) : k <> 0 -> 1 - exp (- k) <> 0.
Proof.
  intros Hk Hden.
  destruct (Rtotal_order k 0) as [Hlt | [Heq | Hgt]].
  - assert (exp 0 < exp (- k)) by (apply exp_increasing; lra).
    rewrite exp_0 in *. lra.
  - contradiction.
  - pose proof (exp_neg_lt_1 Hgt). lra.
Qed.

Lemma calibrate_curve_nonzero (s k max : R) :
  k <> 0 -> calibrate (Some s) k max = Some (Fin (curve k max (clamp s))).
Proof.
  intros Hk. unfold calibrate, jsdiv, curve, clamp.
  pose proof (den_nonzero Hk).
  destruct (Req_dec_T (1 - exp (- k)) 0); [contradiction | reflexivity].
Qed.

(** The ratio of the curve, for a negative [k]: both terms are
    negative. *)
Lemma ratio_neg_k (k x y : R) :
  k < 0 -> 0 < x -> x < y -> y <= 10 ->
  0 < (1 - exp (- k * (x / 10))) / (1 - exp (- k))
  /\ (1 - exp (- k * (x / 10))) / (1 - exp (- k))
     < (1 - exp (- k * (y / 10))) / (1 - exp (- k))
  /\ (1 - exp (- k * (y / 10))) / (1 - exp (- k)) <= 1.
Proof.
  intros Hk Hx Hxy Hy.
  assert (Hden : 1 - exp (- k) < 0).
  { assert (exp 0 < exp (- k)) by (apply exp_increasing; lra).
    rewrite exp_0 in *. lra. }
  assert (Hx1 : 1 < exp (- k * (x / 10))).
  { rewrite <- exp_0. apply exp_increasing. nra. }
  assert (Hxy' : exp (- k * (x / 10)) < exp (- k * (y / 10))).
  { apply exp_increasing. nra. }
  assert (Hy1 : exp (- k * (y / 10)) <= exp (- k)).
  { apply exp_monotone. nra. }
  assert (Hinv : / (1 - exp (- k)) < 0) by now apply Rinv_lt_0_compat.
  unfold Rdiv. repeat split.
  - nra.
  - nra.
  - assert (Hone : (1 - exp (- k)) * / (1 - exp (- k)) = 1)
      by (apply Rinv_r; lra).
    nra.
Qed.

Lemma ratio_pos_k (k x y : R) :
  0 < k -> 0 < x -> x < y -> y <= 10 ->
  0 < (1 - exp (- k * (x / 10))) / (1 - exp (- k))
  /\ (1 - exp (- k * (x / 10))) / (1 - exp (- k))
     < (1 - exp (- k * (y / 10))) / (1 - exp (- k))
  /\ (1 - exp (- k * (y / 10))) / (1 - exp (- k)) <= 1.
Proof.
  intros Hk Hx Hxy Hy. pose proof (den_pos Hk) as Hden.
  assert (Hxy' : exp (- k * (y / 10)) < exp (- k * (x / 10))).
  { apply exp_increasing. nra. }
  assert (Hy1 : exp (- k) <= exp (- k * (y / 10))).
  { apply exp_monotone. nra. }
  assert (Hinv : 0 < / (1 - exp (- k))) by now apply Rinv_0_lt_compat.
  split; [now apply ratio_pos |].
  unfold Rdiv. split.
  - nra.
  - assert (Hone : (1 - exp (- k)) * / (1 - exp (- k)) = 1)
      by (apply Rinv_r; lra).
    nra.
Qed.

Lemma ratio_any_k (k x y : R) :
  k <> 0 -> 0 < x -> x < y -> y <= 10 ->
  0 < (1 - exp (- k * (x / 10))) / (1 - exp (- k))
  /\ (1 - exp (- k * (x / 10))) / (1 - exp (- k))
     < (1 - exp (- k * (y / 10))) / (1 - exp (- k))
  /\ (1 - exp (- k * (y / 10))) / (1 - exp (- k)) <= 1.
Proof.
  intros Hk. destruct (Rtotal_order k 0) as [Hlt | [Heq | Hgt]].
  - now apply ratio_neg_k.
  - contradiction.
  - now apply ratio_pos_k.
Qed.

Lemma curve_range_any_k (k max x : R) :
  k <> 0 -> 0 < max -> 1 <= x <= 10 ->
  0 < curve k max x /\ curve k max x <= max.
Proof.
  intros Hk Hm [Hlo Hhi]. unfold curve.
  destruct (Req_dec_T x 10) as [-> | Hne].
  - replace (- k * (10 / 10)) with (- k) by lra.
    unfold Rdiv. rewrite Rinv_r by now apply den_nonzero. lra.
  - assert (Hx : 0 < x) by lra. assert (Hxy : x < 10) by lra.
    destruct (ratio_any_k Hk Hx Hxy (Rle_refl 10)) as (Hpos & Hlt & Hle1).
    split; nra.
Qed.

(** ** Steepness 0 *)

Lemma calibrate_k_0 (s max : R) : calibrate (Some s) 0 max = Some NaN.
Proof.
  unfold calibrate, jsdiv.
  assert (Hden : 1 - exp (- 0) = 0) by (rewrite Ropp_0, exp_0; lra).
  destruct (Req_dec_T (1 - exp (- 0)) 0); [reflexivity | contradiction].
Qed.

Lemma numbers_no_number (l : list (option num)) :
  Forall (fun n => is_number n = None) l -> numbers l = [].
Proof.
  induction 1 as [| n l Hn _ IH]; [reflexivity |].
  cbn [numbers]. now rewrite Hn.
Qed.

Lemma at_index_no_number (l : list (option num)) (i : nat) :
  Forall (fun n => is_number n = None) l -> is_number (at_index l i) = None.
Proof.
  intros Hl. unfold at_index.
  destruct (nth_in_or_default i l None) as [Hin | ->]; [| reflexivity].
  rewrite Forall_forall in Hl. now apply Hl.
Qed.

Lemma avg_no_number (l : list (option num)) :
  Forall (fun n => is_number n = None) l -> avg l = None.
Proof. intros Hl. unfold avg. now rewrite numbers_no_number. Qed.

Lemma calibrated_k_0 (l : list Answer) (f : Answer -> option R) (max : R) :
  Forall (fun n => is_number n = None)
         (map (fun a => calibrate (f a) 0 max) l).
Proof.
  apply Forall_map, Forall_forall. intros a _.
  destruct (f a) as [s |]; [now rewrite calibrate_k_0 | reflexivity].
Qed.

(** X3.  A steepness of 0 makes the calibration degenerate: every
    present score calibrates to [NaN] (the quotient [0/0]), [avg] skips
    them all, so every section average and the overall average are
    [null] in both runs and all six qualities fall through to 0. *)
Theorem zero_steepness_degenerates (input : Input)
        (Hk : k (calibration (cfg input)) = 0) :
  (forall s max, calibrate (Some s) 0 max = Some NaN)
  /\ sectionCurrent input =
     {| Fulfillment := None; Connection := None; Autonomy := None;
        Vitality := None; Peace := None |}
  /\ sectionScenario input =
     {| Fulfillment := None; Connection := None; Autonomy := None;
        Vitality := None; Peace := None |}
  /\ baseAvgAll input = None
  /\ dimQ input =
     {| Q.Work := 0; Q.Commute := 0; Q.Gym := 0;
        Q.Relationships := 0; Q.Leisure := 0; Q.Other := 0 |}
  /\ dimQ_s input =
     {| Q.Work := 0; Q.Commute := 0; Q.Gym := 0;
        Q.Relationships := 0; Q.Leisure := 0; Q.Other := 0 |}.
Proof.
  assert (Hcur : Forall (fun n => is_number n = None) (current input)).
  { unfold current. rewrite Hk. apply calibrated_k_0. }
  assert (Hscn : Forall (fun n => is_number n = None) (scenario input)).
  { unfold scenario. rewrite Hk. apply calibrated_k_0. }
  assert (Hsec : forall l dim,
             Forall (fun n => is_number n = None) l ->
             avg (map (fun i => at_index l i) dim) = None).
  { intros l dim Hl. apply avg_no_number, Forall_map, Forall_forall.
    intros i _. now apply at_index_no_number. }
  assert (Hsc : sectionCurrent input =
     {| Fulfillment := None; Connection := None; Autonomy := None;
        Vitality := None; Peace := None |}).
  { unfold sectionCurrent. now rewrite !Hsec. }
  assert (Hss : sectionScenario input =
     {| Fulfillment := None; Connection := None; Autonomy := None;
        Vitality := None; Peace := None |}).
  { unfold sectionScenario. now rewrite !Hsec. }
  assert (Hb : baseAvgAll input = None) by now apply avg_no_number.
  assert (Hbs : baseAvgAll_scn input = None) by now apply avg_no_number.
  split; [intros s max; apply calibrate_k_0 |].
  split; [exact Hsc |]. split; [exact Hss |]. split; [exact Hb |].
  split.
  - unfold dimQ. now rewrite Hsc, Hb.
  - unfold dimQ_s. now rewrite Hss, Hbs, Hb.
Qed.

Lemma zero_steepness_degenerates_example :
  k (calibration (cfg flat_steepness)) = 0
  /\ baseAvgAll flat_steepness = None
  /\ dimQ flat_steepness =
     {| Q.Work := 0; Q.Commute := 0; Q.Gym := 0;
        Q.Relationships := 0; Q.Leisure := 0; Q.Other := 0 |}.
Proof.
  assert (Hk : k (calibration (cfg flat_steepness)) = 0) by reflexivity.
  destruct (zero_steepness_degenerates flat_steepness Hk)
    as (_ & _ & _ & Hb & Hq & _).
  split; [exact Hk |]. split; [exact Hb | exact Hq].
Defined.

(** ** [avg] *)

Lemma avg_null_iff (l : list (option num)) :
  avg l = None <-> Forall (fun n => is_number n = None) l.
Proof.
  split; [| apply avg_no_number].
  unfold avg. induction l as [| n l IH]; intros H; [constructor |].
  cbn [numbers] in H. destruct (is_number n) as [r |] eqn:Hn.
  - discriminate H.
  - constructor; [exact Hn | now apply IH].
Qed.

Lemma sum_bounds (v : list R) (lo hi a : R) :
  Forall (fun x => lo <= x <= hi) v ->
  a + lo * INR (List.length v) <= fold_left Rplus v a
  /\ fold_left Rplus v a <= a + hi * INR (List.length v).
Proof.
  intros Hv. revert a.
  induction Hv as [| x v [Hlo Hhi] _ IH]; intros a.
  - cbn [fold_left List.length INR]. lra.
  - cbn [fold_left List.length]. rewrite S_INR.
    destruct (IH (a + x)) as [IHlo IHhi]. split; lra.
Qed.

Lemma numbers_within (l : list (option num)) (lo hi : R) :
  Forall (fun n => forall r, is_number n = Some r -> lo <= r <= hi) l ->
  Forall (fun x => lo <= x <= hi) (numbers l).
Proof.
  induction 1 as [| n l Hn _ IH]; cbn [numbers]; [constructor |].
  destruct (is_number n) as [r |]; [| exact IH].
  constructor; [now apply Hn | exact IH].
Qed.

Lemma avg_within (l : list (option num)) (lo hi m : R) :
  Forall (fun n => forall r, is_number n = Some r -> lo <= r <= hi) l ->
  avg l = Some m -> lo <= m <= hi.
Proof.
  intros Hl Hm. apply numbers_within in Hl. unfold avg in Hm.
  destruct (numbers l) as [| x v] eqn:Hv; [discriminate Hm |].
  injection Hm as <-.
  destruct (sum_bounds 0 Hl) as [Hlo Hhi].
  assert (Hlen : 0 < INR (List.length (x :: v))).
  { apply lt_0_INR. cbn [List.length]. lia. }
  set (len := INR (List.length (x :: v))) in *.
  set (total := fold_left Rplus (x :: v) 0) in *.
  assert (Hinv : 0 <= / len) by (left; now apply Rinv_0_lt_compat).
  assert (H1 : lo * len * / len <= total * / len)
    by (apply Rmult_le_compat_r; lra).
  assert (H2 : total * / len <= hi * len * / len)
    by (apply Rmult_le_compat_r; lra).
  rewrite Rmult_assoc, Rinv_r, Rmult_1_r in H1, H2 by lra.
  unfold Rdiv. split; assumption.
Qed.

Lemma numbers_app (l1 l2 : list (option num)) :
  numbers (l1 ++ l2) = numbers l1 ++ numbers l2.
Proof.
  induction l1 as [| n l1 IH]; [reflexivity |].
  cbn [app numbers]. destruct (is_number n); cbn [app]; now rewrite IH.
Qed.

(** X4.  [avg] over entries that may be [undefined] or [NaN]: the
    result is [null] exactly when no entry is a number; a single number
    among the entries is returned as it is; an entry that is not a
    number changes nothing; and the average of numbers that all lie in
    [[lo, hi]] lies in [[lo, hi]]. *)
Theorem avg_contract :
  (forall l, avg l = None <-> Forall (fun n => is_number n = None) l)
  /\ (forall l r, numbers l = [r] -> avg l = Some r)
  /\ (forall l1 l2 n, is_number n = None ->
        avg (l1 ++ n :: l2) = avg (l1 ++ l2))
  /\ (forall l lo hi m,
        Forall (fun n => forall r, is_number n = Some r -> lo <= r <= hi) l ->
        avg l = Some m -> lo <= m <= hi).
Proof.
  split; [exact avg_null_iff |].
  split.
  { intros l r Hl. unfold avg. rewrite Hl.
    cbn [fold_left List.length INR]. f_equal. lra. }
  split.
  { intros l1 l2 n Hn. unfold avg.
    rewrite !numbers_app. cbn [numbers]. now rewrite Hn. }
  intros l lo hi m. apply avg_within.
Qed.

Lemma avg_contract_example :
  avg [None; Some (Fin 7); Some NaN] = Some 7.
Proof.
  destruct avg_contract as (_ & Hone & _).
  apply Hone. reflexivity.
Defined.

(** ** Which answers a section average sees *)

Lemma at_index_map {A} (f : A -> option num) (l : list A) (i : nat) :
  at_index (map f l) i
  = match nth_error l i with Some a => f a | None => None end.
Proof.
  unfold at_index. revert i.
  induction l as [| a l IH]; intros [| i]; cbn [map nth nth_error];
    try reflexivity.
  apply IH.
Qed.

Lemma is_number_calibrate (s : option R) (k max : R) :
  k <> 0 -> (is_number (calibrate s k max) = None <-> s = None).
Proof.
  intros Hk. destruct s as [s |].
  - rewrite calibrate_curve_nonzero by exact Hk. cbn [is_number].
    split; discriminate.
  - cbn [calibrate is_number]. tauto.
Qed.

Lemma section_null_iff (input : Input) (dim : list nat) :
  k (calibration (cfg input)) <> 0 ->
  avg (map (fun i => at_index (current input) i) dim) = None
  <-> unanswered input dim.
Proof.
  intros Hk. rewrite avg_null_iff, Forall_map, Forall_forall. unfold unanswered.
  split.
  - intros H i a Hi Ha. specialize (H i Hi).
    unfold current in H. rewrite at_index_map, Ha in H.
    eapply is_number_calibrate; [exact Hk | exact H].
  - intros H i Hi. unfold current. rewrite at_index_map.
    destruct (nth_error (answers input) i) as [a |] eqn:Ha; [| reflexivity].
    apply is_number_calibrate; [exact Hk | now apply (H i a)].
Qed.

Lemma section_null_unanswered (input : Input) (dim : list nat) :
  unanswered input dim ->
  avg (map (fun i => at_index (current input) i) dim) = None.
Proof.
  intros H. rewrite avg_null_iff, Forall_map, Forall_forall.
  intros i Hi. unfold current. rewrite at_index_map.
  destruct (nth_error (answers input) i) as [a |] eqn:Ha; [| reflexivity].
  now rewrite (H i a Hi Ha).
Qed.

(** X5.  A section none of whose positions holds an answer with a score
    has a [null] average, at any steepness; positions past the end of a
    short answer list count as unanswered, so a list of at most 20
    answers has no Peace average.  At the default steepness the
    converse holds too: a section average is [null] only when the
    section is unanswered. *)
Theorem section_average_null_iff (input : Input) :
  (unanswered input (Fulfillment DIM_MAP) ->
   Fulfillment (sectionCurrent input) = None)
  /\ (unanswered input (Connection DIM_MAP) ->
      Connection (sectionCurrent input) = None)
  /\ (unanswered input (Autonomy DIM_MAP) ->
      Autonomy (sectionCurrent input) = None)
  /\ (unanswered input (Vitality DIM_MAP) ->
      Vitality (sectionCurrent input) = None)
  /\ (unanswered input (Peace DIM_MAP) ->
      Peace (sectionCurrent input) = None)
  /\ ((List.length (answers input) <= 20)%nat ->
      Peace (sectionCurrent input) = None)
  /\ (k (calibration (cfg input)) = k (calibration DEFAULT_CONFIG) ->
      (Fulfillment (sectionCurrent input) = None ->
       unanswered input (Fulfillment DIM_MAP))
      /\ (Connection (sectionCurrent input) = None ->
          unanswered input (Connection DIM_MAP))
      /\ (Autonomy (sectionCurrent input) = None ->
          unanswered input (Autonomy DIM_MAP))
      /\ (Vitality (sectionCurrent input) = None ->
          unanswered input (Vitality DIM_MAP))
      /\ (Peace (sectionCurrent input) = None ->
          unanswered input (Peace DIM_MAP))).
Proof.
  unfold sectionCurrent. cbn [Fulfillment Connection Autonomy Vitality Peace].
  repeat (split; [now apply section_null_unanswered |]).
  split.
  { intros Hlen. apply section_null_unanswered.
    intros i a Hi Ha.
    assert (Hlt : (i < List.length (answers input))%nat).
    { apply nth_error_Some. congruence. }
    cbn [DIM_MAP Peace In] in Hi. lia. }
  intros Hdef.
  assert (Hk : k (calibration (cfg input)) <> 0).
  { rewrite Hdef. simpl. lra. }
  repeat split; intros Hnull; now apply (section_null_iff _ _ Hk).
Qed.

Lemma section_average_null_iff_example :
  k (calibration (cfg plain_week)) = k (calibration DEFAULT_CONFIG)
  /\ Peace (sectionCurrent plain_week) = None
  /\ unanswered plain_week (Peace DIM_MAP).
Proof.
  assert (Hk : k (calibration (cfg plain_week)) = k (calibration DEFAULT_CONFIG))
    by reflexivity.
  destruct (section_average_null_iff plain_week)
    as (_ & _ & _ & _ & _ & Hshort & Hconv).
  assert (Hp : Peace (sectionCurrent plain_week) = None)
    by (apply Hshort; simpl; lia).
  split; [exact Hk |]. split; [exact Hp |].
  destruct (Hconv Hk) as (_ & _ & _ & _ & HP). exact (HP Hp).
Defined.

(** ** The range of the qualities *)

Lemma calibrated_within (l : list Answer) (f : Answer -> option R) (k max : R) :
  0 < max ->
  Forall (fun n => forall r, is_number n = Some r -> 0 <= r <= max)
         (map (fun a => calibrate (f a) k max) l).
Proof.
  intros Hm. apply Forall_map, Forall_forall. intros a _ r Hr.
  destruct (f a) as [s |]; [| discriminate Hr].
  destruct (Req_dec_T k 0) as [-> | Hk].
  - rewrite calibrate_k_0 in Hr. discriminate Hr.
  - rewrite calibrate_curve_nonzero in Hr by exact Hk.
    injection Hr as <-.
    destruct (curve_range_any_k Hk Hm (clamp_range s)). lra.
Qed.

Lemma at_index_within (P : option num -> Prop) (l : list (option num)) (i : nat) :
  P None -> Forall P l -> P (at_index l i).
Proof.
  intros Hnone Hl. unfold at_index.
  destruct (nth_in_or_default i l None) as [Hin | ->]; [| exact Hnone].
  rewrite Forall_forall in Hl. now apply Hl.
Qed.

Lemma section_within (l : list (option num)) (dim : list nat) (max m : R) :
  Forall (fun n => forall r, is_number n = Some r -> 0 <= r <= max) l ->
  avg (map (fun i => at_index l i) dim) = Some m -> 0 <= m <= max.
Proof.
  intros Hl. apply avg_within, Forall_map, Forall_forall. intros i _.
  apply at_index_within; [discriminate | exact Hl].
Qed.

Lemma quality_within (d : ByDimension (option R)) (base : option R) (max : R) :
  0 < max ->
  (forall m, Fulfillment d = Some m -> 0 <= m <= max) ->
  (forall m, Connection d = Some m -> 0 <= m <= max) ->
  (forall m, Autonomy d = Some m -> 0 <= m <= max) ->
  (forall m, Vitality d = Some m -> 0 <= m <= max) ->
  (forall m, Peace d = Some m -> 0 <= m <= max) ->
  (forall m, base = Some m -> 0 <= m <= max) ->
  Q_within 0 max (qualityFromSections d base).
Proof.
  intros Hm HF HC HA HV HP HB.
  assert (Hpick : forall o : option R,
             (forall m, o = Some m -> 0 <= m <= max) ->
             0 <= coalesce o base ?? 0 <= max).
  { intros [m |] Ho; cbn [coalesce nullish]; [now apply Ho |].
    destruct base as [b |]; cbn [nullish]; [now apply HB | lra]. }
  unfold Q_within, qualityFromSections.
  cbn [Q.Work Q.Commute Q.Gym Q.Relationships Q.Leisure Q.Other].
  repeat split; try (apply Hpick; assumption);
    destruct base as [b |]; cbn [nullish]; try lra; now apply HB.
Qed.

Lemma qualities_bounds (input : Input) :
  0 < max (calibration (cfg input)) ->
  Q_within 0 (max (calibration (cfg input))) (dimQ input)
  /\ Q_within 0 (max (calibration (cfg input))) (dimQ_s input).
Proof.
  intros Hmax.
  pose proof (calibrated_within (answers input) score
                (k (calibration (cfg input))) Hmax) as Hcur.
  pose proof (calibrated_within (answers input) scenarioScore
                (k (calibration (cfg input))) Hmax) as Hscn.
  fold (current input) in Hcur. fold (scenario input) in Hscn.
  split.
  - unfold dimQ. apply quality_within; trivial; intros m Hm;
      first [ eapply section_within; [exact Hcur | exact Hm]
            | eapply avg_within; [exact Hcur | exact Hm] ].
  - unfold dimQ_s. apply quality_within; trivial; intros m Hm;
      try (eapply section_within; [exact Hscn | exact Hm]).
    unfold baseAvgAll_scn, baseAvgAll in Hm.
    destruct (avg (scenario input)) as [b |] eqn:Hb; cbn [coalesce] in Hm.
    + injection Hm as <-. exact (avg_within Hscn Hb).
    + exact (avg_within Hcur Hm).
Qed.

(** X6.  Whatever the answers and the steepness, with [max > 0] the six
    qualities of the current run and the six of the scenario run all lie
    in [[0, max]]: a section average, the overall average and the final
    default 0 are all in that range.  The scenario run's own bindings
    are those of [dimQ_s], so they are in the range too. *)
Theorem qualities_in_range (input : Input)
        (Hmax : 0 < max (calibration (cfg input))) :
  Q_within 0 (max (calibration (cfg input))) (dimQ input)
  /\ Q_within 0 (max (calibration (cfg input))) (dimQ_s input)
  /\ (0 <= commuteQ_s input <= max (calibration (cfg input)))
  /\ (0 <= gymQ_s input <= max (calibration (cfg input)))
  /\ (0 <= relQ_s input <= max (calibration (cfg input)))
  /\ (0 <= leisQ_s input <= max (calibration (cfg input)))
  /\ (0 <= otherQ_s input <= max (calibration (cfg input))).
Proof.
  destruct (qualities_bounds input Hmax) as [Hq Hqs].
  split; [exact Hq |]. split; [exact Hqs |].
  destruct Hqs as (_ & Sc & Sg & Sr & Sl & So).
  unfold commuteQ_s, gymQ_s, relQ_s, leisQ_s, otherQ_s. cbn [nullish].
  repeat split; tauto.
Qed.

Lemma qualities_in_range_example :
  0 < max (calibration (cfg two_answers))
  /\ Q_within 0 (max (calibration (cfg two_answers))) (dimQ two_answers).
Proof.
  assert (Hmax : 0 < max (calibration (cfg two_answers))) by (simpl; lra).
  split; [exact Hmax |].
  apply (qualities_in_range two_answers Hmax).
Defined.

(** ** The week *)

Lemma otherAwake_tracked (input : Input) :
  otherAwake input = Rmax 0 (awakeHours input - tracked_hours input).
Proof. reflexivity. Qed.

Lemma awakeHours_sleep (input : Input) :
  awakeHours input = Rmax 0 (168 - hours (find input Sleep)).
Proof. reflexivity. Qed.

Lemma week_fits_hours (input : Input) :
  week_fits input ->
  awakeHours input = 168 - hours (find input Sleep)
  /\ otherAwake input = awakeHours input - tracked_hours input
  /\ 0 <= otherAwake input.
Proof.
  intros (Hnn & Hsleep & Htracked).
  assert (Ha : awakeHours input = 168 - hours (find input Sleep)).
  { rewrite awakeHours_sleep. apply Rmax_right. lra. }
  assert (Ho : otherAwake input = awakeHours input - tracked_hours input).
  { rewrite otherAwake_tracked. apply Rmax_right. lra. }
  split; [exact Ha |]. split; [exact Ho | lra].
Qed.

(** X7.  How the week is split.  [awakeHours] and [otherAwake] are
    never negative; sleep of 168 hours or more leaves no awake hours,
    and tracked hours that use up the awake hours leave no residual; and
    when the time map fits in the week, the five tracked categories,
    the residual and sleep add up to exactly 168 hours. *)
Theorem week_partition (input : Input) :
  0 <= awakeHours input
  /\ 0 <= otherAwake input
  /\ (168 <= hours (find input Sleep) -> awakeHours input = 0)
  /\ (awakeHours input <= tracked_hours input -> otherAwake input = 0)
  /\ (week_fits input ->
      tracked_hours input + otherAwake input + hours (find input Sleep) = 168).
Proof.
  split; [apply awakeHours_nonneg |].
  split; [rewrite otherAwake_tracked; apply Rmax_l |].
  split; [intros Hs; rewrite awakeHours_sleep; apply Rmax_left; lra |].
  split; [intros Ht; rewrite otherAwake_tracked; apply Rmax_left; lra |].
  intros Hfit. destruct (week_fits_hours Hfit) as (Ha & Ho & _). lra.
Qed.

Lemma week_fits_two_answers : week_fits two_answers.
Proof.
  unfold week_fits, tracked_hours. split; [| split].
  - intros r Hin. simpl in Hin.
    repeat (destruct Hin as [<- | Hin]; [simpl; lra |]). destruct Hin.
  - simpl. lra.
  - simpl. lra.
Qed.

Lemma week_partition_example :
  week_fits two_answers
  /\ tracked_hours two_answers + otherAwake two_answers
     + hours (find two_answers Sleep) = 168.
Proof.
  split; [exact week_fits_two_answers |].
  apply (week_partition two_answers). exact week_fits_two_answers.
Defined.

(** ** The range of the raw score *)

Lemma product_range (h q : R) :
  0 <= h -> 0 <= q <= 10 -> 0 <= h * q /\ h * q <= 10 * h.
Proof. intros Hh [Hlo Hhi]. split; nra. Qed.

(** The arithmetic of [awakeWeighted], [sleepQ] and [rawLMS], on hours
    that fill the week and qualities in [[0,10]]. *)
Lemma weighted_range (hw hc hg hr hl ho hs awake qw qc qg qr ql qo : R) :
  0 <= hw -> 0 <= hc -> 0 <= hg -> 0 <= hr -> 0 <= hl -> 0 <= ho -> 0 <= hs ->
  awake = hw + hc + hg + hr + hl + ho ->
  awake + hs = 168 ->
  0 <= qw <= 10 -> 0 <= qc <= 10 -> 0 <= qg <= 10 ->
  0 <= qr <= 10 -> 0 <= ql <= 10 -> 0 <= qo <= 10 ->
  let total := hw * qw + hc * qc + hg * qg + hr * qr + hl * ql + ho * qo in
  let sleepQ := (10 + total / or_else awake 1) / 2 in
  (0 <= total / or_else awake 1 <= 10)
  /\ (5 <= sleepQ <= 10)
  /\ (0 <= (total + hs * sleepQ) / 168 <= 10).
Proof.
  intros Hw Hc Hg Hr Hl Ho Hs Hawake Hweek Qw Qc Qg Qr Ql Qo total sleepQ.
  destruct (product_range Hw Qw) as [Pw Pw'].
  destruct (product_range Hc Qc) as [Pc Pc'].
  destruct (product_range Hg Qg) as [Pg Pg'].
  destruct (product_range Hr Qr) as [Pr Pr'].
  destruct (product_range Hl Ql) as [Pl Pl'].
  destruct (product_range Ho Qo) as [Po Po'].
  assert (Ht : 0 <= total <= 10 * awake) by (unfold total; lra).
  assert (Haw : 0 <= total / or_else awake 1 <= 10).
  { unfold or_else, truthy. destruct (Req_dec_T awake 0) as [Hz | Hnz].
    - rewrite Hz in Ht. replace total with 0 by lra. lra.
    - assert (Hpos : 0 < awake) by lra.
      assert (Hinv : 0 <= / awake) by (left; now apply Rinv_0_lt_compat).
      assert (H1 : 0 * / awake <= total * / awake)
        by (apply Rmult_le_compat_r; lra).
      assert (H2 : total * / awake <= 10 * awake * / awake)
        by (apply Rmult_le_compat_r; lra).
      rewrite Rmult_assoc, Rinv_r, Rmult_1_r in H2 by lra.
      unfold Rdiv. lra. }
  assert (Hsq : 5 <= sleepQ <= 10) by (unfold sleepQ; lra).
  split; [exact Haw |]. split; [exact Hsq |].
  assert (Hp : 0 <= hs * sleepQ /\ hs * sleepQ <= 10 * hs) by (split; nra).
  lra.
Qed.

Lemma crossLiftBlock_range (input : Input) (w : R) :
  0 <= w <= 10 -> 0 <= crossLiftBlock input w <= 10.
Proof.
  intros Hw. unfold crossLiftBlock.
  destruct (enabled (crossLift (cfg input))); [| exact Hw].
  cbv zeta. unfold Rmin, Rmax.
  repeat destruct (Rle_dec _ _); lra.
Qed.

Lemma Q_within_10 (max : R) (q : Q.t) :
  max <= 10 -> Q_within 0 max q -> Q_within 0 10 q.
Proof.
  unfold Q_within. intros Hm (Hw & Hc & Hg & Hr & Hl & Ho).
  repeat split; lra.
Qed.

(** X8.  On a time map that fits in the week and with a ceiling [max] in
    [(0, 10]], the derived sleep quality lies in [[5, 10]] and the raw
    score in [[0, 10]], in the current and in the scenario run, for any
    answers, any steepness and with cross-lift on or off. *)
Theorem rawLMS_in_range (input : Input)
        (Hfit : week_fits input)
        (Hmax : 0 < max (calibration (cfg input)) <= 10) :
  (5 <= sleepQ input <= 10)
  /\ (0 <= rawLMS input <= 10)
  /\ (5 <= sleepQ_s input <= 10)
  /\ (0 <= rawLMS_s input <= 10).
Proof.
  destruct Hmax as [Hpos Hle].
  destruct (qualities_bounds input Hpos) as [Hq Hqs].
  apply (Q_within_10 Hle) in Hq. apply (Q_within_10 Hle) in Hqs.
  destruct Hq as (Qw & Qc & Qg & Qr & Ql & Qo).
  destruct Hqs as (Sw & Sc & Sg & Sr & Sl & So).
  destruct (week_fits_hours Hfit) as (Ha & Ho & Hother).
  destruct Hfit as (Hnn & Hsleep & Htracked).
  pose proof (find_hours_nonneg input Work Hnn) as Hhw.
  pose proof (find_hours_nonneg input Commute Hnn) as Hhc.
  pose proof (find_hours_nonneg input Gym Hnn) as Hhg.
  pose proof (find_hours_nonneg input Relationships Hnn) as Hhr.
  pose proof (find_hours_nonneg input Leisure Hnn) as Hhl.
  pose proof (find_hours_nonneg input Sleep Hnn) as Hhs.
  assert (Hawake : awakeHours input
                   = hours (find input Work) + hours (find input Commute)
                     + hours (find input Gym) + hours (find input Relationships)
                     + hours (find input Leisure) + otherAwake input).
  { rewrite Ho. unfold tracked_hours. lra. }
  assert (Hweek : awakeHours input + hours (find input Sleep) = 168) by lra.
  pose proof (crossLiftBlock_range input Qw) as Bw.
  pose proof (crossLiftBlock_range input Sw) as Bs.
  destruct (weighted_range Hhw Hhc Hhg Hhr Hhl Hother Hhs Hawake Hweek
              Bw Qc Qg Qr Ql Qo) as (_ & Hsq & Hraw).
  destruct (weighted_range Hhw Hhc Hhg Hhr Hhl Hother Hhs Hawake Hweek
              Bs Sc Sg Sr Sl So) as (_ & Hsqs & Hraws).
  split; [exact Hsq |]. split; [exact Hraw |].
  split; [exact Hsqs | exact Hraws].
Qed.

Lemma rawLMS_in_range_example :
  week_fits two_answers
  /\ 0 <= rawLMS two_answers <= 10.
Proof.
  assert (Hmax : 0 < max (calibration (cfg two_answers)) <= 10)
    by (simpl; lra).
  split; [exact week_fits_two_answers |].
  apply (rawLMS_in_range week_fits_two_answers Hmax).
Defined.

(** ** The range of the net relative impact *)

Lemma find_ri_range (input : Input) (c : TimeCategory) :
  (forall r, In r (timeMap input) -> 1 <= ri r <= 10) ->
  1 <= ri (find input c) <= 10.
Proof.
  intros Hri. destruct (find_cases input c) as [[Hin _] | ->].
  - now apply Hri.
  - cbn [ri]. lra.
Qed.

Lemma share_range (h t : R) :
  0 <= h -> - 0.30 <= t <= 0.30 ->
  - 0.30 * h <= h * t /\ h * t <= 0.30 * h.
Proof. intros Hh [Hlo Hhi]. split; nra. Qed.

Lemma netRI_bounds (input : Input) :
  week_fits input ->
  (forall r, In r (timeMap input) -> 1 <= ri r <= 10) ->
  - 0.30 <= netRI input <= 0.30.
Proof.
  intros Hfit Hri.
  destruct (week_fits_hours Hfit) as (Ha & Ho & Hother).
  destruct Hfit as (Hnn & Hsleep & Htracked).
  pose proof (find_hours_nonneg input Work Hnn) as Hhw.
  pose proof (find_hours_nonneg input Commute Hnn) as Hhc.
  pose proof (find_hours_nonneg input Gym Hnn) as Hhg.
  pose proof (find_hours_nonneg input Relationships Hnn) as Hhr.
  pose proof (find_hours_nonneg input Leisure Hnn) as Hhl.
  pose proof (find_hours_nonneg input Sleep Hnn) as Hhs.
  destruct (share_range Hhw (riToInternal_bounds (find_ri_range input Work Hri)))
    as [Lw Uw].
  destruct (share_range Hhc (riToInternal_bounds (find_ri_range input Commute Hri)))
    as [Lc Uc].
  destruct (share_range Hhg (riToInternal_bounds (find_ri_range input Gym Hri)))
    as [Lg Ug].
  destruct (share_range Hhr
              (riToInternal_bounds (find_ri_range input Relationships Hri)))
    as [Lr Ur].
  destruct (share_range Hhl (riToInternal_bounds (find_ri_range input Leisure Hri)))
    as [Ll Ul].
  destruct (share_range Hother (riToInternal_bounds (find_ri_range input Other Hri)))
    as [Lo Uo].
  unfold tracked_hours in *.
  unfold netRI, by_.
  cbn [By.Work By.Commute By.Gym By.Relationships By.Leisure By.Other].
  lra.
Qed.

(** X9.  On a time map that fits in the week and whose RIs are all in
    [[1,10]], [netRI] lies in [[-0.30, 0.30]]; so with the default
    multiplier a raw score that is not negative is moved by at most 30
    percent, in either run. *)
Theorem netRI_in_range (input : Input)
        (Hfit : week_fits input)
        (Hri : forall r, In r (timeMap input) -> 1 <= ri r <= 10) :
  (- 0.30 <= netRI input <= 0.30)
  /\ (config_ri_globalMultiplier input ?? 1 = 1 ->
      0 <= rawLMS input ->
      0.70 * rawLMS input <= riAdjusted input <= 1.30 * rawLMS input)
  /\ (config_ri_globalMultiplier input ?? 1 = 1 ->
      0 <= rawLMS_s input ->
      0.70 * rawLMS_s input <= riAdjusted_s input <= 1.30 * rawLMS_s input).
Proof.
  pose proof (netRI_bounds Hfit Hri) as [Hlo Hhi].
  split; [now split |].
  split; intros Hg Hraw.
  - unfold riAdjusted. rewrite Hg. split; nra.
  - unfold riAdjusted_s. rewrite Hg. split; nra.
Qed.

Lemma netRI_in_range_example :
  week_fits two_answers
  /\ - 0.30 <= netRI two_answers <= 0.30.
Proof.
  assert (Hri : forall r, In r (timeMap two_answers) -> 1 <= ri r <= 10).
  { intros r Hin. simpl in Hin.
    repeat (destruct Hin as [<- | Hin]; [simpl; lra |]). destruct Hin. }
  split; [exact week_fits_two_answers |].
  apply (netRI_in_range week_fits_two_answers Hri).
Defined.

(** ** The multiplier *)

(** X10.  The multiplier that [riAdjusted] reads straight from the
    input is the one of the resolved config, 1 when the [ri] group is
    left out; and with a multiplier of 0 the RI correction is switched
    off in both runs. *)
Theorem multiplier_is_resolved (input : Input) :
  config_ri_globalMultiplier input ?? 1 = globalMultiplier (ri_group (cfg input))
  /\ (ri_group (cfg input) = ri_group DEFAULT_CONFIG ->
      riAdjusted input = rawLMS input * (1 + netRI input))
  /\ (globalMultiplier (ri_group (cfg input)) = 0 ->
      riAdjusted input = rawLMS input /\ riAdjusted_s input = rawLMS_s input).
Proof.
  assert (Hg : config_ri_globalMultiplier input ?? 1
               = globalMultiplier (ri_group (cfg input))).
  { unfold config_ri_globalMultiplier, cfg. cbn [ri_group].
    destruct (config input) as [c |]; [| reflexivity].
    destruct (ri_opt c); reflexivity. }
  split; [exact Hg |]. split.
  - intros Hd. unfold riAdjusted. rewrite Hg, Hd. cbn. f_equal. lra.
  - intros H0. unfold riAdjusted, riAdjusted_s. rewrite Hg, H0. split; lra.
Qed.

(** ** The life-condition multiplier *)

Lemma riAdjusted_with_ELI (input : Input) (e : option R) :
  riAdjusted (with_ELI input e) = riAdjusted input
  /\ riAdjusted_s (with_ELI input e) = riAdjusted_s input
  /\ rawLMS (with_ELI input e) = rawLMS input.
Proof. repeat split. Qed.

(** X11.  [ELI] only scales the final index.  Changing it leaves
    [rawLMS] and [riAdjusted] as they are; an absent [ELI] counts as 1;
    [finalLMI] is [riAdjusted * (1 - 0.02 * ELI)]; for [ELI] in
    [[1,10]] the multiplier [LMC] lies in [[8, 9.8]]; and a larger [ELI]
    never raises the final index of a non-negative [riAdjusted]. *)
Theorem ELI_dampens (input : Input) :
  (forall e, rawLMS (with_ELI input e) = rawLMS input
             /\ riAdjusted (with_ELI input e) = riAdjusted input)
  /\ finalLMI (with_ELI input None) = finalLMI (with_ELI input (Some 1))
  /\ (forall e, finalLMI (with_ELI input (Some e))
                = riAdjusted input * (1 - 0.02 * e))
  /\ (forall e, finalLMI_s (with_ELI input (Some e))
                = riAdjusted_s input * (1 - 0.02 * e))
  /\ (forall e, 1 <= e <= 10 -> 8 <= LMC (with_ELI input (Some e)) <= 9.8)
  /\ (forall e1 e2, e1 <= e2 -> 0 <= riAdjusted input ->
        finalLMI (with_ELI input (Some e2))
        <= finalLMI (with_ELI input (Some e1))).
Proof.
  assert (Hfin : forall e, finalLMI (with_ELI input (Some e))
                           = riAdjusted input * (1 - 0.02 * e)).
  { intros e. unfold finalLMI, LMC.
    destruct (riAdjusted_with_ELI input (Some e)) as (-> & _ & _).
    cbn [with_ELI ELI nullish]. lra. }
  split.
  { intros e. destruct (riAdjusted_with_ELI input e) as (H1 & _ & H3).
    now split. }
  split; [reflexivity |].
  split; [exact Hfin |].
  split.
  { intros e. unfold finalLMI_s, LMC.
    destruct (riAdjusted_with_ELI input (Some e)) as (_ & -> & _).
    cbn [with_ELI ELI nullish]. lra. }
  split.
  { intros e He. unfold LMC. cbn [with_ELI ELI nullish]. lra. }
  intros e1 e2 He Hri. rewrite !Hfin. nra.
Qed.

Lemma ELI_dampens_example :
  finalLMI (with_ELI blank (Some 10)) <= finalLMI (with_ELI blank (Some 1)).
Proof.
  destruct (ELI_dampens blank) as (_ & _ & _ & _ & _ & Hmono).
  apply Hmono; [lra |].
  unfold riAdjusted.
  rewrite rawLMS_empty, netRI_empty by reflexivity.
  replace (otherQ blank) with 0 by reflexivity.
  replace (config_ri_globalMultiplier blank) with (@None R) by reflexivity.
  cbn [nullish]. lra.
Defined.

(** ** Cross-lift at its edges *)

Lemma riToInternal_not_positive (r : R) :
  r <= 5 -> Rmax 0 (riToInternal (Some r)) = 0.
Proof.
  intros Hr. apply Rmax_left.
  destruct (riToInternal_value r) as [Hlo Hhi].
  destruct (Rlt_dec r 5).
  - rewrite Hlo by assumption. lra.
  - rewrite Hhi by lra. lra.
Qed.

Lemma crossLiftBlock_enabled_range (input : Input) (w : R) :
  enabled (crossLift (cfg input)) = true ->
  1 <= crossLiftBlock input w <= 10.
Proof.
  intros Hon. unfold crossLiftBlock. rewrite Hon. cbv zeta.
  unfold Rmin, Rmax. repeat destruct (Rle_dec _ _); lra.
Qed.

(** X12.  With cross-lift on, the Work quality that leaves the block
    is always in [[1,10]], whatever entered it; a Work quality of 10
    stays 10; and when there is nothing to lift with (no awake hours,
    [alpha = 0], or none of the Relationships, Gym and Leisure RIs above
    5) the block only clamps: a Work quality in [[1,10]] is unchanged,
    and one below 1, such as the 0 of an unanswered questionnaire, is
    raised to 1. *)
Theorem crossLift_clamps (input : Input)
        (Hon : enabled (crossLift (cfg input)) = true) :
  (forall w, 1 <= crossLiftBlock input w <= 10)
  /\ crossLiftBlock input 10 = 10
  /\ (awakeHours input = 0
      \/ alpha (crossLift (cfg input)) = 0
      \/ (ri (find input Relationships) <= 5 /\ ri (find input Gym) <= 5
          /\ ri (find input Leisure) <= 5) ->
      (forall w, crossLiftBlock input w = Rmin 10 (Rmax 1 w))
      /\ (forall w, 1 <= w <= 10 -> crossLiftBlock input w = w)
      /\ (forall w, w <= 1 -> crossLiftBlock input w = 1)).
Proof.
  split; [intros w; now apply crossLiftBlock_enabled_range |].
  split.
  { unfold crossLiftBlock. rewrite Hon. cbv zeta.
    replace ((10 - 10) / 10) with 0 by lra. rewrite Rmult_0_r, Rplus_0_r.
    unfold Rmin, Rmax. repeat destruct (Rle_dec _ _); lra. }
  intros Hnone.
  assert (Hclamp : forall w, crossLiftBlock input w = Rmin 10 (Rmax 1 w)).
  { intros w. unfold crossLiftBlock. rewrite Hon. cbv zeta.
    match goal with
    | |- Rmin 10 (Rmax 1 (w + ?u)) = _ => assert (Hu : u = 0)
    end.
    { destruct Hnone as [Ha | [Hal | (Hr & Hg & Hl)]].
      - rewrite Ha. unfold truthy.
        destruct (Req_dec_T 0 0); [lra | contradiction].
      - rewrite Hal. lra.
      - unfold by_. cbn [By.Relationships By.Gym By.Leisure].
        rewrite !riToInternal_not_positive by assumption. lra. }
    rewrite Hu, Rplus_0_r. reflexivity. }
  split; [exact Hclamp |]. split.
  - intros w Hw. rewrite Hclamp. unfold Rmin, Rmax.
    repeat destruct (Rle_dec _ _); lra.
  - intros w Hw. rewrite Hclamp. unfold Rmin, Rmax.
    repeat destruct (Rle_dec _ _); lra.
Qed.

Lemma crossLift_clamps_example :
  enabled (crossLift (cfg lift_on_neutral)) = true
  /\ Q.Work (dimQ lift_on_neutral) = 0
  /\ workQ lift_on_neutral = 1.
Proof.
  assert (Hon : enabled (crossLift (cfg lift_on_neutral)) = true)
    by reflexivity.
  assert (Hw : Q.Work (dimQ lift_on_neutral) = 0) by reflexivity.
  split; [exact Hon |]. split; [exact Hw |].
  destruct (crossLift_clamps lift_on_neutral Hon) as (_ & _ & Hnone).
  unfold workQ. rewrite Hw. apply Hnone; [| lra].
  right. right. simpl. repeat split; lra.
Defined.

(** ** A scenario that repeats the current answers *)

(** X13.  When every answer's scenario score is its current score, the
    scenario run is the current run: calibrated arrays, section
    averages, qualities and the three scenario scores are those of the
    current run, with cross-lift on or off. *)
Theorem same_scores_same_index (input : Input)
        (Hsame : Forall (fun a => scenarioScore a = score a) (answers input)) :
  scenario input = current input
  /\ sectionScenario input = sectionCurrent input
  /\ dimQ_s input = dimQ input
  /\ workQ_s input = workQ input
  /\ rawLMS_s input = rawLMS input
  /\ riAdjusted_s input = riAdjusted input
  /\ finalLMI_s input = finalLMI input.
Proof.
  assert (Hscn : scenario input = current input).
  { unfold scenario, current. apply map_ext_in. intros a Ha.
    rewrite Forall_forall in Hsame. now rewrite (Hsame a Ha). }
  assert (Hsec : sectionScenario input = sectionCurrent input).
  { unfold sectionScenario, sectionCurrent. now rewrite Hscn. }
  assert (Hq : dimQ_s input = dimQ input).
  { unfold dimQ_s, dimQ, baseAvgAll_scn, baseAvgAll. rewrite Hsec, Hscn.
    now destruct (avg (current input)). }
  assert (Hw : workQ_s input = workQ input).
  { unfold workQ_s, workQ. now rewrite Hq. }
  assert (Hraw : rawLMS_s input = rawLMS input).
  { unfold rawLMS_s, rawLMS, sleepQ_s, sleepQ, awakeWeighted_s, awakeWeighted,
      commuteQ_s, gymQ_s, relQ_s, leisQ_s, otherQ_s,
      commuteQ, gymQ, relQ, leisQ, otherQ.
    cbn [nullish]. now rewrite Hw, Hq. }
  assert (Hri : riAdjusted_s input = riAdjusted input).
  { unfold riAdjusted_s, riAdjusted. now rewrite Hraw. }
  repeat (split; [assumption |]).
  unfold finalLMI_s, finalLMI. now rewrite Hri.
Qed.

Lemma same_scores_same_index_example :
  finalLMI_s two_answers = finalLMI two_answers.
Proof.
  apply (@same_scores_same_index two_answers).
  repeat constructor.
Defined.

(** ** A scenario with no score *)

(** X14.  When no answer has a scenario score and cross-lift is off,
    the scenario run scores every awake bucket at the overall average
    [b] of the current answers (0 when nothing is answered).  On a time
    map that fits in the week and leaves some hours awake, its
    awake-weighted quality is [b], its sleep quality [(10 + b) / 2] and
    its raw score [(awake * b + sleep * (10 + b) / 2) / 168]. *)
Theorem scenario_without_scores (input : Input)
        (Habsent : Forall (fun a => scenarioScore a = None) (answers input))
        (Hoff : enabled (crossLift (cfg input)) = false)
        (Hfit : week_fits input)
        (Hawake : hours (find input Sleep) < 168) :
  workQ_s input = baseAvgAll input ?? 0
  /\ awakeWeighted_s input = baseAvgAll input ?? 0
  /\ sleepQ_s input = (10 + (baseAvgAll input ?? 0)) / 2
  /\ rawLMS_s input
     = (awakeHours input * (baseAvgAll input ?? 0)
        + hours (find input Sleep) * ((10 + (baseAvgAll input ?? 0)) / 2))
       / 168.
Proof.
  destruct (week_fits_hours Hfit) as (Ha & Ho & _).
  assert (Hw : workQ_s input = baseAvgAll input ?? 0).
  { unfold workQ_s. rewrite crossLiftBlock_disabled by exact Hoff.
    now rewrite (dimQ_s_all_absent input Habsent). }
  assert (Haw : awakeWeighted_s input = baseAvgAll input ?? 0).
  { unfold awakeWeighted_s, commuteQ_s, gymQ_s, relQ_s, leisQ_s, otherQ_s.
    rewrite Hw, (dimQ_s_all_absent input Habsent).
    cbn [nullish Q.Commute Q.Gym Q.Relationships Q.Leisure Q.Other].
    rewrite Ho. unfold tracked_hours, by_.
    cbn [By.Work By.Commute By.Gym By.Relationships By.Leisure].
    unfold or_else, truthy.
    destruct (Req_dec_T (awakeHours input) 0) as [Hz | Hnz]; [lra |].
    field. exact Hnz. }
  assert (Hsq : sleepQ_s input = (10 + (baseAvgAll input ?? 0)) / 2).
  { unfold sleepQ_s. now rewrite Haw. }
  split; [exact Hw |]. split; [exact Haw |]. split; [exact Hsq |].
  unfold rawLMS_s. fold (sleepQ_s input). rewrite Hsq.
  unfold commuteQ_s, gymQ_s, relQ_s, leisQ_s, otherQ_s.
  rewrite Hw, (dimQ_s_all_absent input Habsent).
  cbn [nullish Q.Commute Q.Gym Q.Relationships Q.Leisure Q.Other].
  rewrite Ho. unfold tracked_hours, by_.
  cbn [By.Sleep By.Work By.Commute By.Gym By.Relationships By.Leisure].
  field.
Qed.

Lemma week_fits_autonomy_high : week_fits autonomy_high.
Proof.
  unfold week_fits, tracked_hours. split; [| split].
  - intros r Hin. simpl in Hin.
    repeat (destruct Hin as [<- | Hin]; [simpl; lra |]). destruct Hin.
  - simpl. lra.
  - simpl. lra.
Qed.

Lemma scenario_without_scores_example :
  hours (find autonomy_high Sleep) < 168
  /\ workQ_s autonomy_high = baseAvgAll autonomy_high ?? 0.
Proof.
  assert (Hawake : hours (find autonomy_high Sleep) < 168) by (simpl; lra).
  split; [exact Hawake |].
  apply (scenario_without_scores scenario_absent_autonomy_high eq_refl
           week_fits_autonomy_high Hawake).
Defined.

(** ** The extremes of the rankings *)





(** ** Which answers the section averages read *)

Lemma at_index_first_24 {A} (f : A -> option num) (l : list A) (i : nat) :
  (i < 24)%nat ->
  at_index (map f (firstn 24 l)) i = at_index (map f l) i.
Proof.
  intros Hi. rewrite !at_index_map, nth_error_firstn.
  apply Nat.ltb_lt in Hi. now rewrite Hi.
Qed.

Lemma section_first_24 {A} (f : A -> option num) (l : list A) (dim : list nat) :
  Forall (fun i => (i < 24)%nat) dim ->
  avg (map (fun i => at_index (map f l) i) dim)
  = avg (map (fun i => at_index (map f (firstn 24 l)) i) dim).
Proof.
  intros Hdim. f_equal. apply map_ext_in. intros i Hi.
  rewrite Forall_forall in Hdim. symmetry.
  apply at_index_first_24. now apply Hdim.
Qed.

(** X16.  The section averages read the first 24 answers only: two
    inputs with the same calibration whose answer lists agree on their
    first 24 items have the same section averages, in both runs,
    however many more answers either list holds. *)
Theorem sections_read_24_answers (i1 i2 : Input)
        (Hcal : calibration (cfg i1) = calibration (cfg i2))
        (Hfirst : firstn 24 (answers i1) = firstn 24 (answers i2)) :
  sectionCurrent i1 = sectionCurrent i2
  /\ sectionScenario i1 = sectionScenario i2.
Proof.
  assert (HF : Forall (fun i => (i < 24)%nat) (Fulfillment DIM_MAP))
    by (repeat constructor).
  assert (HC : Forall (fun i => (i < 24)%nat) (Connection DIM_MAP))
    by (repeat constructor).
  assert (HA : Forall (fun i => (i < 24)%nat) (Autonomy DIM_MAP))
    by (repeat constructor).
  assert (HV : Forall (fun i => (i < 24)%nat) (Vitality DIM_MAP))
    by (repeat constructor).
  assert (HP : Forall (fun i => (i < 24)%nat) (Peace DIM_MAP))
    by (repeat constructor).
  unfold sectionCurrent, sectionScenario, current, scenario.
  rewrite Hcal.
  rewrite !(section_first_24 _ (answers i1)) by assumption.
  rewrite !(section_first_24 _ (answers i2)) by assumption.
  now rewrite Hfirst.
Qed.

Lemma sections_read_24_answers_example :
  sectionCurrent all10
  = sectionCurrent
      {| answers := answers all10 ++ [answer_of 1; answer_of 2];
         timeMap := []; ELI := Some 1; config := None |}.
Proof.
  apply (@sections_read_24_answers all10
           {| answers := answers all10 ++ [answer_of 1; answer_of 2];
              timeMap := []; ELI := Some 1; config := None |});
    reflexivity.
Defined.

(** ** The request handler *)

Lemma scoreLMI_throws (input : Input) :
  scoreLMI input = Throw (ReferenceError "rawLMS_scn").
Proof.
  destruct (ranking_never_throws input) as (d & u & Hd & Hu).
  unfold scoreLMI. rewrite Hd, Hu. cbn [bind].
  rewrite lookup_rawLMS, lookup_riAdjusted, lookup_finalLMI. cbn [bind].
  now rewrite lookup_rawLMS_scn.
Qed.

(** X17.  [POST] never answers with a score.  A body that does not
    parse is answered with status 400 and the parse failure; a body that
    parses to an input is answered with status 400 as well, the error
    being the [ReferenceError] for [rawLMS_scn] that [scoreLMI] ends
    in. *)
Theorem POST_always_400 (body : Body) :
  status (POST body) = 400%nat
  /\ (forall o, payload (POST body) <> Result o)
  /\ (forall why, body = Malformed why ->
        payload (POST body) = ErrorOf (ParseFailure why))
  /\ (forall input, body = Parsed input ->
        payload (POST body)
        = ErrorOf (Raised (ReferenceError "rawLMS_scn"))).
Proof.
  destruct body as [why | input]; unfold POST.
  - repeat split; cbn [payload]; try discriminate.
    + intros why' H. now injection H as <-.
  - rewrite scoreLMI_throws. repeat split; cbn [payload]; discriminate.
Qed.

Lemma POST_always_400_example :
  POST (Parsed all10)
  = {| status := 400;
       payload := ErrorOf (Raised (ReferenceError "rawLMS_scn")) |}.
Proof.
  destruct (POST_always_400 (Parsed all10)) as (Hs & _ & _ & Hp).
  specialize (Hp all10 eq_refl).
  destruct (POST (Parsed all10)) as [st pl]. cbn [status payload] in Hs, Hp.
  now rewrite Hs, Hp.
Defined.
